(** * pluck / makinoa: the build-and-insert script, embedded in Rocq

    A shallow embedding of [scripts/makinoa/__main__.py].  The script is a
    straight-line program over the file system, the process environment and
    three external tools; it is modelled as a computation in a small
    state-and-exit monad whose state is the set of files and a chronological
    trace of every effect the script performs.  The pure helpers
    ([round_up_to_4], the scan step of [find_needed_words]) are ordinary
    functions on [Z] and byte lists. *)

From Equations Require Import Equations.
From Stdlib Require Import ZArith Lia Strings.Byte Strings.Ascii.
From stdpp Require Import gmap strings list pretty.

Open Scope Z_scope.

(** ** Strings and paths *)

Definition nl : string := String "010"%char EmptyString.

(** [s.endswith(suffix)] *)
Fixpoint endswith (s suffix : string) : bool :=
  String.eqb s suffix ||
  match s with
  | EmptyString => false
  | String _ r => endswith r suffix
  end.

(** [fnmatch.fnmatch(path, "*.c")] on a POSIX host (no case folding). *)
Definition fnmatch_c (path : string) : bool := endswith path ".c".

(** [s.replace(old, new)] for a non-empty [old]: every occurrence, left to
    right, without overlap.  [skip] counts the characters of an occurrence
    that are still to be dropped. *)
Fixpoint replace_from (old new : string) (skip : nat) (s : string) : string :=
  match s with
  | EmptyString => EmptyString
  | String a r =>
      match skip with
      | S k => replace_from old new k r
      | O =>
          if String.prefix old s
          then new +:+ replace_from old new (Nat.pred (String.length old)) r
          else String a (replace_from old new O r)
      end
  end.

Definition replace (s old new : string) : string := replace_from old new O s.

(** One step of [posixpath.join]. *)
Definition join2 (path b : string) : string :=
  if String.prefix "/" b then b
  else if String.eqb path "" || endswith path "/" then path +:+ b
  else path +:+ "/" +:+ b.

(** [os.path.join(a, *ps)] *)
Definition path_join (a : string) (ps : list string) : string := foldl join2 a ps.

Definition src : string := "src".
Definition build : string := "build".
Definition build_src : string := path_join build [src].
Definition relocatable : string := path_join build_src ["relocatable.o"%string].

(** The object file a source file is compiled to:
    [os.path.join(build_src, srcfile.replace(".c", ".o"))]. *)
Definition object_of (srcfile : string) : string :=
  path_join build_src [replace srcfile ".c" ".o"].

(** ** Alignment and the allocation request *)

(** [round_up_to_4]: the source recurses on [x + 1] until the two low bits
    are clear. *)
Equations? round_up_to_4 (x : Z) : Z by wf (Z.to_nat ((- x) mod 4)) lt :=
  round_up_to_4 x with Z.eq_dec (Z.land x 3) 0 => {
    | left _ := x ;
    | right Hne := round_up_to_4 (x + 1) }.
Proof.
  change 3 with (Z.ones 2) in Hne. rewrite Z.land_ones in Hne by lia.
  change (2 ^ 2) with 4 in Hne.
  pose proof (Z.mod_pos_bound x 4 ltac:(lia)).
  pose proof (Z.mod_pos_bound (- x) 4 ltac:(lia)).
  pose proof (Z.mod_pos_bound (- (x + 1)) 4 ltac:(lia)).
  pose proof (Z.div_mod x 4 ltac:(lia)).
  pose proof (Z.div_mod (- x) 4 ltac:(lia)).
  pose proof (Z.div_mod (- (x + 1)) 4 ltac:(lia)).
  lia.
Qed.

Definition offset_mask : Z := 0x08000000.

(** [needed_words = round_up_to_4(st_size + reserve) >> 2] *)
Definition needed_words_of (st_size reserve : Z) : Z :=
  Z.shiftr (round_up_to_4 (st_size + reserve)) 2.

(** [free_space |= offset_mask; free_space = round_up_to_4(free_space)] *)
Definition normalize_free_space (free_space : Z) : Z :=
  round_up_to_4 (Z.lor free_space offset_mask).

(** The spec's words for the request size: the ceiling of [n / 4]. *)
Definition ceil_div4 (n : Z) : Z := (n + 3) / 4.

(** What the spec calls "the four applications all yield the same value". *)
Definition four_agree (addr : Z) : Prop :=
  round_up_to_4 addr = round_up_to_4 (addr + 1) /\
  round_up_to_4 (addr + 1) = round_up_to_4 (addr + 2) /\
  round_up_to_4 (addr + 2) = round_up_to_4 (addr + 3).

(** ** Effects: files, trace, exits *)

Inductive event :=
| EvPrint (line : string)                 (* print(...) on stdout *)
| EvRun (argv : list string) (returncode : Z)   (* subprocess.run(argv) *)
| EvRmtree (path : string)
| EvMkdir (path : string)
| EvOpen (path mode : string)
| EvSeek (path : string) (off : Z)
| EvRead (path : string) (n : Z)
| EvWrite (path text : string)
| EvStat (path : string)
| EvCopy (source dest : string).

Inductive exn :=
| FileNotFoundError (path : string)
| TypeError
| OSError.

(** How a run of the script ends: [sys.exit(code)] (falling off the end is
    [Exit 0]), an exception nobody catches, or a loop that is still running
    when the fuel given to the model is used up. *)
Inductive outcome :=
| Exit (code : Z)
| Uncaught (e : exn)
| NoFuel.

Inductive res (A : Type) :=
| Ok (a : A)
| Stop (o : outcome).
Arguments Ok {A} a.
Arguments Stop {A} o.

Record pstate := {
  st_fs : gmap string (list byte);
  st_trace : list event
}.

Definition M (A : Type) : Type := pstate -> res A * pstate.

Definition ret {A} (a : A) : M A := fun st => (Ok a, st).

Definition bind {A B} (m : M A) (k : A -> M B) : M B :=
  fun st =>
    match m st with
    | (Ok a, st') => k a st'
    | (Stop o, st') => (Stop o, st')
    end.

Notation "x <~ c1 ;; c2" := (bind c1 (fun x => c2))
  (at level 100, c1 at next level, right associativity).
Notation "c1 ;;; c2" := (bind c1 (fun _ => c2))
  (at level 100, right associativity).

(** The state after one more effect. *)
Definition logged (e : event) (st : pstate) : pstate :=
  {| st_fs := st_fs st; st_trace := st_trace st ++ [e] |}.

Definition log (e : event) : M unit := fun st => (Ok tt, logged e st).

Definition sys_exit {A} (code : Z) : M A := fun st => (Stop (Exit code), st).
Definition raise {A} (e : exn) : M A := fun st => (Stop (Uncaught e), st).
Definition out_of_fuel {A} : M A := fun st => (Stop NoFuel, st).

Definition print (line : string) : M unit := log (EvPrint line).

Definition get_fs : M (gmap string (list byte)) := fun st => (Ok (st_fs st), st).
Definition put_fs (fs : gmap string (list byte)) : M unit :=
  fun st => (Ok tt, {| st_fs := fs; st_trace := st_trace st |}).

(** [shutil.rmtree(path, ignore_errors=True)]: every file below [path] goes. *)
Definition rmtree (path : string) : M unit :=
  log (EvRmtree path) ;;;
  fs <~ get_fs ;;
  put_fs (filter (fun kv => String.prefix (path +:+ "/") kv.1 = false) fs).

(** Directories are implicit in the file map; [os.mkdir] only leaves its
    mark in the trace. *)
Definition mkdir (path : string) : M unit := log (EvMkdir path).

(** [with open(path, "w"): ...] creates or truncates the file. *)
Definition open_w (path : string) : M unit :=
  log (EvOpen path "w") ;;;
  fs <~ get_fs ;;
  put_fs (<[path := []]> fs).

(** [open(path, "r"/"rb")]: the content at the time of opening. *)
Definition open_r (path mode : string) : M (list byte) :=
  fs <~ get_fs ;;
  match fs !! path with
  | None => raise (FileNotFoundError path)
  | Some data => log (EvOpen path mode) ;;; ret data
  end.

(** [print(text, end="", file=outstream)] *)
Definition write (path text : string) : M unit :=
  log (EvWrite path text) ;;;
  fs <~ get_fs ;;
  put_fs (<[path := default [] (fs !! path) ++ String.list_byte_of_string text]> fs).

Definition write_bytes (path : string) (data : list byte) : M unit :=
  log (EvWrite path (String.string_of_list_byte data)) ;;;
  fs <~ get_fs ;;
  put_fs (<[path := default [] (fs !! path) ++ data]> fs).

(** [os.stat(path).st_size] *)
Definition stat_size (path : string) : M Z :=
  fs <~ get_fs ;;
  match fs !! path with
  | None => raise (FileNotFoundError path)
  | Some data => log (EvStat path) ;;; ret (Z.of_nat (length data))
  end.

(** [shutil.copy(source, dest)] *)
Definition copy (source dest : string) : M unit :=
  fs <~ get_fs ;;
  match fs !! source with
  | None => raise (FileNotFoundError source)
  | Some data => log (EvCopy source dest) ;;; put_fs (<[dest := data]> fs)
  end.

(** ** The free-space locator *)

#[global] Instance byte_eq_decision : EqDecision byte := Byte.byte_eq_dec.

(** [val == b"\xff\xff\xff\xff"] *)
Definition is_erased (val : list byte) : bool :=
  bool_decide (val = [xff; xff; xff; xff]).

(** The loop variables of [find_needed_words]: the position of the file
    object, [record] and [start]. *)
Record scan_state := {
  sc_pos : Z;
  sc_record : Z;
  sc_start : option Z
}.

(** [rom.read(n)] at position [pos]: what is left of the file, at most [n]
    bytes; past the end it is empty. *)
Definition read_at (rom : list byte) (pos : Z) (n : nat) : list byte :=
  take n (drop (Z.to_nat pos) rom).

(** The body of the [while] loop, given the bytes [val] just read;
    [rom.tell()] is the position after the read. *)
Definition scan_step (val : list byte) (s : scan_state) : scan_state :=
  let tell := sc_pos s + Z.of_nat (length val) in
  if is_erased val then
    match sc_start s with
    | None =>
        {| sc_pos := tell;
           sc_record := if sc_record s =? 0 then 1 else sc_record s;
           sc_start := Some (tell - 4) |}
    | Some _ =>
        {| sc_pos := tell;
           sc_record := sc_record s + 1;
           sc_start := sc_start s |}
    end
  else
    {| sc_pos := tell; sc_record := sc_record s; sc_start := None |}.

(** [while record < needed_words: ...]; the loop has no other exit. *)
Fixpoint scan (fuel : nat) (needed_words : Z) (rom : list byte)
    (s : scan_state) : M (option Z) :=
  if sc_record s <? needed_words then
    match fuel with
    | O => out_of_fuel
    | S fuel' =>
        log (EvRead "rom.gba" 4) ;;;
        scan fuel' needed_words rom (scan_step (read_at rom (sc_pos s) 4) s)
    end
  else ret (sc_start s).

Definition find_needed_words (fuel : nat) (needed_words free_space : Z) : M Z :=
  if needed_words =? 0 then ret 0
  else
    rom <~ open_r "rom.gba" "rb" ;;
    let off := Z.lxor offset_mask free_space in
    (if off <? 0 then raise OSError else log (EvSeek "rom.gba" off)) ;;;
    start <~ scan fuel needed_words rom
               {| sc_pos := off; sc_record := 0; sc_start := None |} ;;
    match start with
    | None => raise TypeError          (* None ^ offset_mask *)
    | Some s => ret (Z.lxor s offset_mask)
    end.

(** The spec's words for what the locator looks for: [n] erased words in a
    row, the first one at byte offset [off] of the image. *)
Fixpoint erased_run (rom : list byte) (off : Z) (n : nat) : bool :=
  match n with
  | O => true
  | S n' => is_erased (read_at rom off 4) && erased_run rom (off + 4) n'
  end.

(** [cand] is the first word position at or after [start], in steps of one
    word, where a run of [n] erased words begins. *)
Definition first_sufficient_run (rom : list byte) (start : Z) (n : nat)
    (cand : Z) : Prop :=
  start <= cand /\ (cand - start) mod 4 = 0 /\
  erased_run rom cand n = true /\
  forall c, start <= c < cand -> (c - start) mod 4 = 0 ->
            erased_run rom c n = false.

(** The count that every erased word adds one to: [record], less the one
    word that opening a new run after a break leaves uncounted. *)
Definition credit (s : scan_state) : Z :=
  match sc_start s with
  | Some _ => sc_record s
  | None => Z.max 0 (sc_record s - 1)
  end.

(** What holds of the loop variables at every test of the loop condition. *)
Definition scan_inv (needed_words : Z) (s : scan_state) : Prop :=
  0 <= sc_pos s /\ 0 <= sc_record s /\
  (sc_record s < needed_words \/ sc_start s <> None).

(** Sample images, word by word. *)
Definition word_ff : list byte := [xff; xff; xff; xff].
Definition word_00 : list byte := [x00; x00; x00; x00].

(** Two erased words, a break, two erased words, a break, three erased
    words. *)
Definition image_2_2_3 : list byte :=
  word_ff ++ word_ff ++ word_00 ++ word_ff ++ word_ff ++ word_00 ++
  word_ff ++ word_ff ++ word_ff.

(** Two erased words, a break, two erased words. *)
Definition image_2_2 : list byte :=
  word_ff ++ word_ff ++ word_00 ++ word_ff ++ word_ff.

(** The image of the spec's end-to-end scenario: 64 bytes of 0x00, 16 of
    0xFF, 32 of 0x00. *)
Definition image_scenario : list byte :=
  List.repeat x00 64 ++ List.repeat xff 16 ++ List.repeat x00 32.

(** A fresh run with only [rom.gba] on disk. *)
Definition rom_only (rom : list byte) : pstate :=
  {| st_fs := {[ "rom.gba"%string := rom ]}; st_trace := [] |}.

(** ** Configuration and the outside world *)

(** The values the script holds after reading [config.ini] (lines 27-31):
    each [iniparser.get] gives a string, or [None] for a key written without
    a value ([allow_no_value=True]). *)
Record config := {
  free_space : option string;
  optimization_level : option string;
  reserve : option string;
  short_calls : gset string;
  defines : list (string * option string)
}.

(** What the script asks of its host.  [w_int16] and [w_int10] are Python's
    [int(s, 16)] and [int(s)] on strings, [None] standing for [ValueError];
    [w_run] is an external tool: its exit code and what it does to the
    files. *)
Record world := {
  w_config : config;
  w_int16 : string -> option Z;
  w_int10 : string -> option Z;
  w_environ : gmap string string;
  w_exists : string -> bool;
  w_which : string -> option string;
  w_listdir : string -> list string;
  w_run : list string -> gmap string (list byte) -> Z * gmap string (list byte);
  w_files : gmap string (list byte)
}.

(** [subprocess.run(argv).returncode]; the tool is taken to start and to
    come back. *)
Definition subprocess_run (w : world) (argv : list string) : M Z :=
  fun st =>
    let '(code, fs') := w_run w argv (st_fs st) in
    (Ok code, {| st_fs := fs'; st_trace := st_trace st ++ [EvRun argv code] |}).

(** [f"{x}"] for a value that may be [None]. *)
Definition fmt (v : option string) : string := default "None"%string v.

Definition optimization_levels : list string :=
  ["-O"; "-O0"; "-O1"; "-O2"; "-O3"; "-Ofast"; "-Og"; "-Os"]%string.

(** Lines 33-47: the numbers are parsed and the optimization level is
    checked.  [int(None, 16)] and [int(None)] raise [TypeError], which the
    [except ValueError] clauses do not catch. *)
Definition validate_config (w : world) : M (Z * Z * string) :=
  let cfg := w_config w in
  free_space_n <~
    match free_space cfg with
    | None => raise TypeError
    | Some s =>
        match w_int16 w s with
        | Some n => ret n
        | None =>
            print ("Error :: " +:+ s +:+ " is not a hexadecimal integer.") ;;;
            sys_exit 1
        end
    end ;;
  reserve_n <~
    match reserve cfg with
    | None => raise TypeError
    | Some s =>
        match w_int10 w s with
        | Some n => ret n
        | None =>
            print ("Error :: " +:+ s +:+ " is not a decimal integer.") ;;;
            sys_exit 1
        end
    end ;;
  let reject : M (Z * Z * string) :=
    print ("Error :: " +:+ fmt (optimization_level cfg) +:+
           " is not an understood optimization level.") ;;;
    sys_exit 1 in
  match optimization_level cfg with
  | Some level =>
      if bool_decide (level ∈ optimization_levels)
      then ret (free_space_n, reserve_n, level)
      else reject
  | None => reject
  end.

(** Lines 54-67: where the compiler and the linker are. *)
Definition find_devkitarm (w : world) : M (string * string) :=
  match w_environ w !! "DEVKITARM"%string with
  | Some d =>
      if w_exists w d
      then ret (path_join d ["bin"; "arm-none-eabi-gcc"]%string,
                path_join d ["bin"; "arm-none-eabi-ld"]%string)
      else ret (path_join "C:/"
                  ["devkitPro"; "devkitARM"; "bin"; "arm-none-eabi-gcc"]%string,
                path_join "C:/"
                  ["devkitPro"; "devkitARM"; "bin"; "arm-none-eabi-ld"]%string)
  | None =>
      match w_which w "arm-none-eabi-gcc", w_which w "arm-none-eabi-ld" with
      | Some cc, Some ld => ret (cc, ld)
      | _, _ => print "Error :: Can't find devkitARM." ;;; sys_exit 1
      end
  end.

(** ["-D", f"{name}{f'={val}' if val is not None else ''}"] for each define. *)
Definition define_flags (ds : list (string * option string)) : list string :=
  flat_map (fun d => ["-D"%string;
                      d.1 +:+ match d.2 with
                              | Some val => "=" +:+ val
                              | None => ""
                              end]) ds.

Definition CFLAGS (level : string) (ds : list (string * option string))
    : list string :=
  [level; "-Wall"; "-Wextra"; "-mthumb"; "-mno-thumb-interwork";
   "-fno-inline"; "-fno-builtin"; "-std=c11"; "-mcpu=arm7tdmi";
   "-march=armv4t"; "-mtune=arm7tdmi"; "-c"]%string ++ define_flags ds.

Definition LDFLAGS : list string := ["--relocatable"%string].

(** The calling-convention flag of one source file (line 96). *)
Definition call_flag (w : world) (srcfile : string) : string :=
  if bool_decide (srcfile ∈ short_calls (w_config w))
  then "-mno-long-calls" else "-mlong-calls".

(** The command line of one compilation (lines 93-100). *)
Definition compile_argv (w : world) (CC : string) (cflags : list string)
    (srcfile : string) : list string :=
  [CC] ++ cflags ++
  [call_flag w srcfile; path_join src [srcfile]; "-o"%string; object_of srcfile].

(** The body of the compile loop, over the files still to do (lines 92-107). *)
Fixpoint compile_sources (w : world) (CC : string) (cflags : list string)
    (files : list string) (long_calls : gset string) : M (gset string) :=
  match files with
  | [] => ret long_calls
  | srcfile :: rest =>
      exit_code <~ subprocess_run w (compile_argv w CC cflags srcfile) ;;
      if bool_decide (exit_code ≠ 0)
      then print "Error :: Compilation failed." ;;; sys_exit exit_code
      else compile_sources w CC cflags rest
             (if bool_decide (srcfile ∈ short_calls (w_config w))
              then long_calls
              else long_calls ∪ {[srcfile]})
  end.

(** Lines 89-107. *)
Definition compile_stage (w : world) (CC : string) (cflags : list string)
    : M (gset string) :=
  if w_exists w src
  then compile_sources w CC cflags (List.filter fnmatch_c (w_listdir w src)) ∅
  else ret ∅.

(** The command line of the merge (lines 115-121). *)
Definition link_argv (LD : string) (long_calls : gset string) : list string :=
  [LD] ++ LDFLAGS ++ (object_of <$> elements long_calls) ++
  ["-o"%string; relocatable].

(** Lines 109-125. *)
Definition merge_stage (w : world) (LD : string) (long_calls : gset string)
    : M unit :=
  open_w relocatable ;;;
  if bool_decide (long_calls ≠ ∅)
  then
    exit_code <~ subprocess_run w (link_argv LD long_calls) ;;
    if bool_decide (exit_code ≠ 0)
    then print "Error :: Linking failed." ;;; sys_exit exit_code
    else ret tt
  else ret tt.

(** Lines 133-137: the request size and the normalized start address. *)
Definition allocation_request (free_space_n reserve_n : Z) : M (Z * Z) :=
  st_size <~ stat_size relocatable ;;
  ret (needed_words_of st_size reserve_n, normalize_free_space free_space_n).

(** Lines 166-173. *)
Definition find_armips (w : world) : M string :=
  match w_environ w !! "ARMIPS"%string with
  | Some a => ret a
  | None =>
      match w_which w "armips" with
      | Some a => ret a
      | None => print "Error :: Can't find armips." ;;; sys_exit 1
      end
  end.

(** Lines 181-182: one label per define. *)
Fixpoint write_defines (out : string) (ds : list (string * option string))
    : M unit :=
  match ds with
  | [] => ret tt
  | d :: rest =>
      write out (".definelabel " +:+ d.1 +:+ ", " +:+ default "0"%string d.2 +:+ nl) ;;;
      write_defines out rest
  end.

(** Lines 175-182.  The template is copied as it is (one write here for the
    source's one write per line); the locator runs while the output file is
    open. *)
Definition patch_source (fuel : nat) (w : world) (needed_words free_space_n : Z)
    : M unit :=
  template <~ open_r "main.asm" "r" ;;
  let out := path_join build ["main.asm"%string] in
  open_w out ;;;
  write_bytes out template ;;;
  write out (nl +:+ "// Beyond this point is autogenerated." +:+ nl) ;;;
  allocation <~ find_needed_words fuel needed_words free_space_n ;;
  write out (".definelabel allocation, " +:+ pretty allocation +:+ nl) ;;;
  write_defines out (defines (w_config w)).

Definition assemble_argv (ARMIPS : string) (needed_words : Z) : list string :=
  [ARMIPS; "-sym"; "test.sym"; path_join build ["main.asm"%string];
   "-equ"; "allocation_size"; pretty (Z.shiftl needed_words 2)]%string.

(** Lines 184-196. *)
Definition assemble_stage (w : world) (ARMIPS : string) (needed_words : Z)
    : M unit :=
  exit_code <~ subprocess_run w (assemble_argv ARMIPS needed_words) ;;
  if bool_decide (exit_code ≠ 0)
  then print "Error :: Assembly failed." ;;; sys_exit exit_code
  else ret tt.

(** The script from line 33 on. *)
Definition script (fuel : nat) (w : world) : M unit :=
  validated <~ validate_config w ;;
  let '(free_space_n, reserve_n, level) := validated in
  rmtree build ;;;
  mkdir build ;;;
  mkdir build_src ;;;
  tools <~ find_devkitarm w ;;
  let '(CC, LD) := tools in
  long_calls <~ compile_stage w CC (CFLAGS level (defines (w_config w))) ;;
  merge_stage w LD long_calls ;;;
  request <~ allocation_request free_space_n reserve_n ;;
  let '(needed_words, free_space_a) := request in
  copy "rom.gba" "test.gba" ;;;
  ARMIPS <~ find_armips w ;;
  patch_source fuel w needed_words free_space_a ;;;
  assemble_stage w ARMIPS needed_words.

(** A run of the script in world [w]: how it ends, and the files and the
    trace it leaves. *)
Definition main (fuel : nat) (w : world) : outcome * pstate :=
  match script fuel w {| st_fs := w_files w; st_trace := [] |} with
  | (Ok _, st) => (Exit 0, st)
  | (Stop o, st) => (o, st)
  end.

(** ** Traces of runs *)

(** The command lines of the external tools in a trace, in order. *)
Definition runs (tr : list event) : list (list string) :=
  omap (fun e => match e with EvRun argv _ => Some argv | _ => None end) tr.

(** An event other than a tool that exited non-zero. *)
Definition run_ok (e : event) : Prop :=
  match e with
  | EvRun _ code => code = 0
  | _ => True
  end.

(** The trace of a run that a failing tool has ended: every tool before it
    succeeded, then the tool that failed, then the one line printed about
    it, and [sys.exit] with the tool's code. *)
Definition failed_at (o : outcome) (tr : list event) : Prop :=
  exists pre argv code msg,
    tr = pre ++ [EvRun argv code; EvPrint msg] /\
    Forall run_ok pre /\ code <> 0 /\ o = Exit code.

(** A computation that, started after successful tools only, either sees
    only successful tools itself or is ended by the first one that fails. *)
Definition fail_fast {A} (m : M A) : Prop :=
  forall st, Forall run_ok (st_trace st) ->
    match m st with
    | (Ok _, st') => Forall run_ok (st_trace st')
    | (Stop o, st') => Forall run_ok (st_trace st') \/ failed_at o (st_trace st')
    end.

(** ** Sample worlds *)

Definition digit_of (base : Z) (c : ascii) : option Z :=
  let n := Z.of_nat (nat_of_ascii c) in
  let d := if (48 <=? n) && (n <=? 57) then n - 48
           else if (97 <=? n) && (n <=? 102) then n - 87
           else if (65 <=? n) && (n <=? 70) then n - 55
           else base in
  if d <? base then Some d else None.

Fixpoint digits_from (base acc : Z) (s : string) : option Z :=
  match s with
  | EmptyString => Some acc
  | String c r =>
      match digit_of base c with
      | Some d => digits_from base (acc * base + d) r
      | None => None
      end
  end.

(** A stand-in for Python's [int(s, base)] on the plain spellings: an
    optional sign, for base 16 an optional [0x], then digits. *)
Definition plain_int (base : Z) (s : string) : option Z :=
  let '(sign, body) :=
    match s with
    | String "-" r => (-1, r)
    | String "+" r => (1, r)
    | _ => (1, s)
    end in
  let body :=
    if base =? 16 then
      match body with
      | String "0" (String "x" r) => r
      | String "0" (String "X" r) => r
      | _ => body
      end
    else body in
  match body with
  | EmptyString => None
  | _ => (fun n => sign * n) <$> digits_from base 0 body
  end.

(** A host with the tools on the search path, [src] holding [files], an
    image and an empty template on disk, and [tool] for the external
    tools. *)
Definition sample_world (cfg : config) (files : list string)
    (tool : list string -> gmap string (list byte) -> Z * gmap string (list byte))
    : world :=
  {| w_config := cfg;
     w_int16 := plain_int 16;
     w_int10 := plain_int 10;
     w_environ := ∅;
     w_exists := fun _ => true;
     w_which := fun name => Some ("/opt/bin/" +:+ name);
     w_listdir := fun _ => files;
     w_run := tool;
     w_files := {[ "rom.gba"%string := image_2_2_3; "main.asm"%string := [] ]} |}.

Definition sample_config (short : gset string) : config :=
  {| free_space := Some "0x08000000"%string;
     optimization_level := Some "-O2"%string;
     reserve := Some "0"%string;
     short_calls := short;
     defines := [] |}.

(** The argument before [-o] and the one after it. *)
Fixpoint around_o (argv : list string) : option (string * string) :=
  match argv with
  | input :: (flag :: output :: _) as rest =>
      if String.eqb flag "-o" then Some (input, output) else around_o rest
  | _ => None
  end.

(** A toy tool that succeeds and writes, as its output file, the name of
    the input it was given last: what an output file holds then tells which
    input it was made from. *)
Definition toy_tool (argv : list string) (fs : gmap string (list byte))
    : Z * gmap string (list byte) :=
  match around_o argv with
  | Some (input, output) => (0, <[output := String.list_byte_of_string input]> fs)
  | None => (0, fs)
  end.

(** Two sources whose names [replace] sends to one object name, the second
    of them listed in [short-calls]. *)
Definition colliding_world : world :=
  sample_world (sample_config {[ "x.c.c"%string ]})
               ["x.o.c"; "x.c.c"]%string toy_tool.

(** One source and a compiler that exits with 2. *)
Definition failing_world : world :=
  sample_world (sample_config ∅) ["a.c"%string] (fun _ fs => (2, fs)).

(** A [config.ini] whose [free-space] key has no value. *)
Definition valueless_world : world :=
  sample_world
    {| free_space := None;
       optimization_level := Some "-O2"%string;
       reserve := Some "0"%string;
       short_calls := ∅;
       defines := [] |}
    ["a.c"%string] toy_tool.

(** ** Footprints and disciplines of computations *)

(** An operation of the locator on the image file. *)
Definition rom_event (e : event) : Prop :=
  match e with
  | EvOpen path mode => path = "rom.gba"%string /\ mode = "rb"%string
  | EvSeek path _ => path = "rom.gba"%string
  | EvRead path n => path = "rom.gba"%string /\ n = 4
  | _ => False
  end.

(** A computation whose every effect is an event in [Pev] and which takes
    the files from [fs] to some [fs'] with [Rfs fs fs']. *)
Definition footprint (Pev : event -> Prop)
    (Rfs : gmap string (list byte) -> gmap string (list byte) -> Prop)
    {A} (m : M A) : Prop :=
  forall st,
    Rfs (st_fs st) (st_fs (snd (m st))) /\
    exists evs, st_trace (snd (m st)) = st_trace st ++ evs /\ Forall Pev evs.





(** A line printed on stdout. *)
Definition is_print (e : event) : Prop :=
  match e with
  | EvPrint _ => True
  | _ => False
  end.

(** A trace without a printed line. *)
Definition silent (tr : list event) : Prop := Forall (fun e => ~ is_print e) tr.

(** The trace of a run that ended in [sys.exit] with a code other than 0,
    right after the one line the script printed. *)
Definition announced (o : outcome) (tr : list event) : Prop :=
  exists pre msg code,
    tr = pre ++ [EvPrint msg] /\ silent pre /\ code <> 0 /\ o = Exit code.

(** A computation that prints only to leave at once with a non-zero code,
    and never leaves through [sys.exit] in any other way. *)
Definition disciplined {A} (m : M A) : Prop :=
  forall st, silent (st_trace st) ->
    match m st with
    | (Ok _, st') => silent (st_trace st')
    | (Stop o, st') =>
        (silent (st_trace st') /\ forall c, o <> Exit c) \/
        announced o (st_trace st')
    end.

(** ** More about images and names *)


(** [a] is the position of an erased word, a whole number of words after
    [off]. *)
Definition erased_word_at (rom : list byte) (off a : Z) : Prop :=
  (exists j : nat, a = off + 4 * Z.of_nat j) /\ is_erased (read_at rom a 4) = true.

(** The loop variables as they can be while scanning from [off]: the
    position is a whole number of words on, or the image is used up, and
    [start] is the position of an erased word. *)
Definition scan_sound (rom : list byte) (off : Z) (s : scan_state) : Prop :=
  0 <= sc_pos s /\
  ((exists j : nat, sc_pos s = off + 4 * Z.of_nat j) \/
   Z.of_nat (length rom) <= sc_pos s) /\
  (forall a, sc_start s = Some a -> erased_word_at rom off a).

(** A name without [.] and without [/]. *)
Fixpoint plain_stem (s : string) : bool :=
  match s with
  | EmptyString => true
  | String a r => negb (Ascii.eqb a ".") && negb (Ascii.eqb a "/") && plain_stem r
  end.





(** * Properties *)

(** ** The string and file helpers against Python's results *)

Example replace_every_occurrence :
  replace "main.c" ".c" ".o" = "main.o"%string /\
  replace "a.cc.c" ".c" ".o" = "a.oc.o"%string /\
  replace "x.c.c" ".c" ".o" = "x.o.o"%string /\
  replace "x.o.c" ".c" ".o" = "x.o.o"%string.
Proof. repeat split. Qed.

Example path_join_posix :
  path_join "build" ["src"; "relocatable.o"]%string = "build/src/relocatable.o"%string /\
  path_join "C:/" ["devkitPro"]%string = "C:/devkitPro"%string /\
  path_join "" ["a"]%string = "a"%string /\
  path_join "a" ["/b"]%string = "/b"%string.
Proof. repeat split. Qed.

Example fnmatch_c_suffix :
  fnmatch_c "main.c" = true /\ fnmatch_c ".c" = true /\
  fnmatch_c "main.cpp" = false /\ fnmatch_c "main.C" = false.
Proof. repeat split. Qed.

Example read_past_the_end :
  read_at [xff; xff; xff; xff; xff; xff] 4 4 = [xff; xff] /\
  read_at [xff; xff; xff; xff; xff; xff] 6 4 = [] /\
  read_at [xff; xff; xff; xff; xff; xff] 100 4 = [].
Proof. repeat split. Qed.

(** ** Alignment and the request size *)

Section Alignment.

Lemma land3_mod4 (x : Z) : Z.land x 3 = x mod 4.
Proof. change 3 with (Z.ones 2). rewrite Z.land_ones by lia. reflexivity. Qed.

Lemma round_up_to_4_aligned (x : Z) : Z.land x 3 = 0 -> round_up_to_4 x = x.
Proof.
  intros H. rewrite round_up_to_4_equation_1.
  destruct (Z.eq_dec (Z.land x 3) 0); [reflexivity | contradiction].
Qed.

Lemma round_up_to_4_next (x : Z) :
  Z.land x 3 <> 0 -> round_up_to_4 x = round_up_to_4 (x + 1).
Proof.
  intros H. rewrite round_up_to_4_equation_1.
  destruct (Z.eq_dec (Z.land x 3) 0); [contradiction | reflexivity].
Qed.

(** The closed form: the least multiple of 4 that is not below [x]. *)
Lemma round_up_to_4_closed (x : Z) : round_up_to_4 x = 4 * ((x + 3) / 4).
Proof.
  funelim (round_up_to_4 x).
  - pose proof (land3_mod4 x).
    pose proof (Z.div_mod x 4 ltac:(lia)).
    pose proof (Z.div_mod (x + 3) 4 ltac:(lia)).
    pose proof (Z.mod_pos_bound (x + 3) 4 ltac:(lia)).
    lia.
  - rewrite H. pose proof (land3_mod4 x).
    pose proof (Z.div_mod x 4 ltac:(lia)).
    pose proof (Z.mod_pos_bound x 4 ltac:(lia)).
    pose proof (Z.div_mod (x + 3) 4 ltac:(lia)).
    pose proof (Z.mod_pos_bound (x + 3) 4 ltac:(lia)).
    pose proof (Z.div_mod (x + 1 + 3) 4 ltac:(lia)).
    pose proof (Z.mod_pos_bound (x + 1 + 3) 4 ltac:(lia)).
    lia.
Qed.


(** C5: for non-negative [sizeBytes] and [reserveBytes] the request is
    [ceil((sizeBytes + reserveBytes) / 4)] words: the least number of words
    that holds that many bytes, with no extra word when the byte count is a
    multiple of 4. *)
Theorem needed_words_is_ceiling (sizeBytes reserveBytes : Z) :
  0 <= sizeBytes -> 0 <= reserveBytes ->
  let n := sizeBytes + reserveBytes in
  let needed_words := needed_words_of sizeBytes reserveBytes in
  needed_words = ceil_div4 n /\
  4 * (needed_words - 1) < n <= 4 * needed_words /\
  (n mod 4 = 0 -> 4 * needed_words = n).
Proof.
  intros Hs Hr n needed_words. subst needed_words. unfold needed_words_of.
  fold n. rewrite round_up_to_4_closed, Z.shiftr_div_pow2 by lia.
  change (2 ^ 2) with 4. rewrite Z.mul_comm, Z.div_mul by lia.
  unfold ceil_div4.
  pose proof (Z.div_mod (n + 3) 4 ltac:(lia)).
  pose proof (Z.mod_pos_bound (n + 3) 4 ltac:(lia)).
  pose proof (Z.div_mod n 4 ltac:(lia)).
  pose proof (Z.mod_pos_bound n 4 ltac:(lia)).
  repeat split; lia.
Qed.

Lemma needed_words_is_ceiling_witness :
  needed_words_of 5 3 = ceil_div4 8 /\
  4 * (needed_words_of 5 3 - 1) < 8 <= 4 * needed_words_of 5 3 /\
  (8 mod 4 = 0 -> 4 * needed_words_of 5 3 = 8).
Proof. apply (needed_words_is_ceiling 5 3); lia. Defined.

(** C6 as stated fails: from an aligned address the four applications do not
    agree, [round_up_to_4 0 = 0] while [round_up_to_4 1 = 4]. *)
Lemma four_agree_fails_at_0 : ~ four_agree 0.
Proof.
  unfold four_agree. intros [H _]. revert H.
  rewrite !round_up_to_4_closed. vm_compute. discriminate.
Qed.

(** C6, amended: an aligned address is returned unchanged and aligning twice
    is aligning once; [round_up_to_4 addr] is the next multiple of 4 that is
    not below [addr]; it is the addresses [a+1 .. a+4] above an aligned [a]
    that share one result, so [addr .. addr+3] agree exactly when [addr] is
    1 modulo 4. *)
Theorem round_up_to_4_next_multiple (addr k : Z) :
  round_up_to_4 (4 * k) = 4 * k /\
  round_up_to_4 (round_up_to_4 addr) = round_up_to_4 addr /\
  (round_up_to_4 addr mod 4 = 0 /\ addr <= round_up_to_4 addr < addr + 4) /\
  (round_up_to_4 (4 * k + 1) = 4 * k + 4 /\
   round_up_to_4 (4 * k + 2) = 4 * k + 4 /\
   round_up_to_4 (4 * k + 3) = 4 * k + 4 /\
   round_up_to_4 (4 * k + 4) = 4 * k + 4) /\
  (four_agree addr <-> addr mod 4 = 1).
Proof.
  unfold four_agree. rewrite !round_up_to_4_closed.
  repeat match goal with
  | |- context [?t / 4] =>
      lazymatch goal with
      | _ : t = 4 * (t / 4) + t mod 4 |- _ => fail
      | _ =>
          pose proof (Z.div_mod t 4 ltac:(lia));
          pose proof (Z.mod_pos_bound t 4 ltac:(lia));
          generalize dependent (t / 4); intros
      end
  end.
  pose proof (Z.div_mod addr 4 ltac:(lia)).
  pose proof (Z.mod_pos_bound addr 4 ltac:(lia)).
  assert (Hmod : forall q, (4 * q) mod 4 = 0)
    by (intros q; rewrite Z.mul_comm; apply Z.mod_mul; lia).
  rewrite !Hmod.
  repeat split; try lia.
Qed.

End Alignment.

(** ** The free-space locator *)

Section Locator.

Variable rom : list byte.
Variable needed_words : Z.

Lemma is_erased_length (val : list byte) : is_erased val = true -> length val = 4%nat.
Proof. unfold is_erased. intros H. apply bool_decide_eq_true in H. subst. reflexivity. Qed.

Lemma read_at_length (pos : Z) :
  length (read_at rom pos 4) = Nat.min 4 (length rom - Z.to_nat pos).
Proof. unfold read_at. rewrite length_take, length_drop. reflexivity. Qed.

Lemma scan_done (fuel : nat) (s : scan_state) (st : pstate) :
  needed_words <= sc_record s ->
  scan fuel needed_words rom s st = (Ok (sc_start s), st).
Proof.
  intros H. destruct fuel; simpl;
    (replace (sc_record s <? needed_words) with false by (symmetry; apply Z.ltb_ge; lia));
    reflexivity.
Qed.

Lemma scan_more (fuel : nat) (s : scan_state) (st : pstate) :
  sc_record s < needed_words ->
  scan (S fuel) needed_words rom s st =
  scan fuel needed_words rom (scan_step (read_at rom (sc_pos s) 4) s)
       (logged (EvRead "rom.gba" 4) st).
Proof.
  intros H. simpl.
  replace (sc_record s <? needed_words) with true by (symmetry; apply Z.ltb_lt; lia).
  reflexivity.
Qed.

Lemma scan_no_fuel (s : scan_state) (st : pstate) :
  sc_record s < needed_words ->
  scan 0 needed_words rom s st = (Stop NoFuel, st).
Proof.
  intros H. simpl.
  replace (sc_record s <? needed_words) with true by (symmetry; apply Z.ltb_lt; lia).
  reflexivity.
Qed.

(** A word that is not erased clears [start] and leaves [record] alone. *)
Lemma scan_step_not_erased (val : list byte) (s : scan_state) :
  is_erased val = false ->
  scan_step val s =
  {| sc_pos := sc_pos s + Z.of_nat (length val);
     sc_record := sc_record s;
     sc_start := None |}.
Proof. intros H. unfold scan_step. rewrite H. reflexivity. Qed.

(** Once fewer than four bytes are left, no read is an erased word again and
    the loop goes on for ever. *)
Lemma scan_exhausted (fuel : nat) (s : scan_state) (st : pstate) :
  0 <= sc_pos s ->
  Z.of_nat (length rom) < sc_pos s + 4 ->
  sc_record s < needed_words ->
  fst (scan fuel needed_words rom s st) = Stop NoFuel.
Proof.
  revert s st. induction fuel as [|fuel IH]; intros s st Hpos Hend Hrec.
  - rewrite scan_no_fuel by lia. reflexivity.
  - rewrite scan_more by lia.
    assert (Hlen : (length (read_at rom (sc_pos s) 4) < 4)%nat)
      by (rewrite read_at_length; lia).
    assert (Hne : is_erased (read_at rom (sc_pos s) 4) = false).
    { destruct (is_erased _) eqn:E; [|reflexivity].
      apply is_erased_length in E. lia. }
    rewrite scan_step_not_erased by exact Hne.
    apply IH; simpl; lia.
Qed.

Lemma scan_step_inv (s : scan_state) :
  scan_inv needed_words s -> sc_record s < needed_words ->
  scan_inv needed_words (scan_step (read_at rom (sc_pos s) 4) s).
Proof.
  intros (Hp & Hr & Hs) Hlt. unfold scan_inv, scan_step.
  destruct (is_erased _); [destruct (sc_start s) eqn:E|]; simpl.
  - split; [lia|]. split; [lia|]. right. congruence.
  - split; [lia|]. split; [destruct (sc_record s =? 0); lia|]. right. congruence.
  - split; [lia|]. split; [lia|]. left. lia.
Qed.

Lemma scan_step_erased_credit (s : scan_state) :
  0 <= sc_record s ->
  is_erased (read_at rom (sc_pos s) 4) = true ->
  let s' := scan_step (read_at rom (sc_pos s) 4) s in
  credit s' = credit s + 1 /\ sc_pos s' = sc_pos s + 4.
Proof.
  intros Hr He. unfold scan_step, credit. rewrite He.
  apply is_erased_length in He. rewrite He.
  destruct (sc_start s) eqn:E; simpl; [lia|].
  destruct (sc_record s =? 0) eqn:Z0; [apply Z.eqb_eq in Z0|apply Z.eqb_neq in Z0]; lia.
Qed.

Lemma credit_le_record (s : scan_state) : 0 <= sc_record s -> credit s <= sc_record s.
Proof. unfold credit. destruct (sc_start s); lia. Qed.

(** Inside a run of [m] erased words the loop stops after at most [m]
    reads, as soon as the words counted so far and the run add up to the
    request. *)
Lemma scan_through_run (m : nat) (s : scan_state) (st : pstate) :
  scan_inv needed_words s ->
  erased_run rom (sc_pos s) m = true ->
  needed_words <= credit s + Z.of_nat m ->
  exists fuel a, fst (scan fuel needed_words rom s st) = Ok (Some a).
Proof.
  revert s st. induction m as [|m IH]; intros s st Hinv Hrun Hc.
  - destruct Hinv as (Hp & Hr & Hs).
    pose proof (credit_le_record s Hr).
    exists 0%nat. rewrite scan_done by lia.
    destruct Hs as [?|Hs]; [lia|].
    destruct (sc_start s) as [a|]; [|congruence]. exists a. reflexivity.
  - destruct (Z_lt_le_dec (sc_record s) needed_words) as [Hlt|Hge].
    + simpl in Hrun. apply andb_true_iff in Hrun as [He Hrun].
      destruct (scan_step_erased_credit s) as [Hcr Hps]; [apply Hinv|exact He|].
      destruct (IH (scan_step (read_at rom (sc_pos s) 4) s)
                   (logged (EvRead "rom.gba" 4) st)) as (fuel & a & Hf).
      * apply scan_step_inv; assumption.
      * rewrite Hps. exact Hrun.
      * lia.
      * exists (S fuel), a. rewrite scan_more by lia. exact Hf.
    + destruct Hinv as (Hp & Hr & Hs).
      exists 0%nat. rewrite scan_done by lia.
      destruct Hs as [?|Hs]; [lia|].
      destruct (sc_start s) as [a|]; [|congruence]. exists a. reflexivity.
Qed.

Lemma erased_run_bound (pos : Z) (m : nat) :
  0 <= pos -> (0 < m)%nat -> erased_run rom pos m = true ->
  pos + 4 <= Z.of_nat (length rom).
Proof.
  intros Hp Hm Hrun. destruct m; [lia|]. simpl in Hrun.
  apply andb_true_iff in Hrun as [He _]. apply is_erased_length in He.
  rewrite read_at_length in He. lia.
Qed.

(** If a run of [needed_words] erased words lies [k] words ahead, the loop
    stops. *)
Lemma scan_terminates (k : nat) (s : scan_state) (st : pstate) :
  scan_inv needed_words s -> 1 <= needed_words ->
  erased_run rom (sc_pos s + 4 * Z.of_nat k) (Z.to_nat needed_words) = true ->
  exists fuel a, fst (scan fuel needed_words rom s st) = Ok (Some a).
Proof.
  revert s st. induction k as [|k IH]; intros s st Hinv Hn Hrun.
  - apply (scan_through_run (Z.to_nat needed_words)); try assumption.
    + replace (sc_pos s + 4 * Z.of_nat 0) with (sc_pos s) in Hrun by lia. exact Hrun.
    + unfold credit. destruct Hinv as (? & ? & ?). destruct (sc_start s); lia.
  - destruct (Z_lt_le_dec (sc_record s) needed_words) as [Hlt|Hge].
    + assert (Hfull : length (read_at rom (sc_pos s) 4) = 4%nat).
      { destruct Hinv as (Hp & _).
        assert (Hb : sc_pos s + 4 * Z.of_nat (S k) + 4 <= Z.of_nat (length rom))
          by (apply (erased_run_bound _ (Z.to_nat needed_words)); [lia|lia|exact Hrun]).
        rewrite read_at_length. lia. }
      destruct (IH (scan_step (read_at rom (sc_pos s) 4) s)
                   (logged (EvRead "rom.gba" 4) st)) as (fuel & a & Hf).
      * apply scan_step_inv; assumption.
      * assumption.
      * replace (sc_pos (scan_step (read_at rom (sc_pos s) 4) s))
          with (sc_pos s + 4).
        -- replace (sc_pos s + 4 + 4 * Z.of_nat k)
             with (sc_pos s + 4 * Z.of_nat (S k)) by lia. exact Hrun.
        -- unfold scan_step. rewrite Hfull.
           destruct (is_erased _); [destruct (sc_start s)|]; simpl; lia.
      * exists (S fuel), a. rewrite scan_more by lia. exact Hf.
    + destruct Hinv as (Hp & Hr & Hs).
      exists 0%nat. rewrite scan_done by lia.
      destruct Hs as [?|Hs]; [lia|].
      destruct (sc_start s) as [a|]; [|congruence]. exists a. reflexivity.
Qed.

(** [find_needed_words] with the image on disk and a valid seek: the file
    is opened, the position set, and the loop decides. *)
Lemma find_needed_words_scan (fuel : nat) (free_space_a : Z) (st : pstate) :
  needed_words <> 0 ->
  st_fs st !! "rom.gba"%string = Some rom ->
  0 <= Z.lxor offset_mask free_space_a ->
  find_needed_words fuel needed_words free_space_a st =
  let off := Z.lxor offset_mask free_space_a in
  match scan fuel needed_words rom
          {| sc_pos := off; sc_record := 0; sc_start := None |}
          (logged (EvSeek "rom.gba" off) (logged (EvOpen "rom.gba" "rb") st)) with
  | (Ok (Some a), st') => (Ok (Z.lxor a offset_mask), st')
  | (Ok None, st') => (Stop (Uncaught TypeError), st')
  | (Stop o, st') => (Stop o, st')
  end.
Proof.
  intros Hn Hrom Hoff. unfold find_needed_words.
  apply Z.eqb_neq in Hn. rewrite Hn.
  unfold bind at 1. unfold open_r, bind at 1, get_fs. rewrite Hrom.
  unfold bind at 1, log, ret. unfold bind at 1.
  replace (Z.lxor offset_mask free_space_a <? 0) with false
    by (symmetry; apply Z.ltb_ge; lia).
  unfold bind at 1. cbn zeta.
  destruct (scan _ _ _ _ _) as [[[a|]|o] st']; reflexivity.
Qed.

(** X7: the locator returns whenever a run of [needed_words] erased words
    lies at or after the start offset, a whole number of words away. *)
Lemma find_needed_words_terminates (k : nat) (free_space_a : Z) (st : pstate) :
  1 <= needed_words ->
  st_fs st !! "rom.gba"%string = Some rom ->
  0 <= Z.lxor offset_mask free_space_a ->
  erased_run rom (Z.lxor offset_mask free_space_a + 4 * Z.of_nat k)
             (Z.to_nat needed_words) = true ->
  exists fuel a, fst (find_needed_words fuel needed_words free_space_a st) = Ok a.
Proof.
  intros Hn Hrom Hoff Hrun.
  set (s0 := {| sc_pos := Z.lxor offset_mask free_space_a;
                sc_record := 0; sc_start := None |}).
  destruct (scan_terminates k s0
              (logged (EvSeek "rom.gba" (Z.lxor offset_mask free_space_a))
                 (logged (EvOpen "rom.gba" "rb") st))) as (fuel & a & Hf).
  - unfold scan_inv, s0. simpl. lia.
  - exact Hn.
  - exact Hrun.
  - exists fuel, (Z.lxor a offset_mask).
    rewrite find_needed_words_scan by (assumption || lia). cbn zeta.
    fold s0. destruct (scan _ _ _ _ _) as [[[b|]|o] st'];
      simpl in Hf; try discriminate. injection Hf as ->. reflexivity.
Qed.

(** The locator never returns when fewer than four bytes of the image lie
    at or after the start offset. *)
Lemma find_needed_words_diverges (fuel : nat) (free_space_a : Z) (st : pstate) :
  1 <= needed_words ->
  st_fs st !! "rom.gba"%string = Some rom ->
  0 <= Z.lxor offset_mask free_space_a ->
  Z.of_nat (length rom) < Z.lxor offset_mask free_space_a + 4 ->
  fst (find_needed_words fuel needed_words free_space_a st) = Stop NoFuel.
Proof.
  intros Hn Hrom Hoff Hend.
  rewrite find_needed_words_scan by (assumption || lia). cbn zeta.
  match goal with |- context [scan ?f ?n ?r ?s ?t] =>
    pose proof (scan_exhausted f s t) as Hx; destruct (scan f n r s t) as [[[a|]|o] st']
  end; simpl in Hx |- *; try (specialize (Hx ltac:(lia) ltac:(lia) ltac:(lia)));
    congruence.
Qed.

End Locator.

(** C3 as stated fails: with nothing to place the locator returns 0, not
    the start address it was given. *)
Lemma zero_words_not_start_address :
  fst (find_needed_words 0 0 0x08800000 (rom_only [])) <> Ok 0x08800000.
Proof. vm_compute. discriminate. Qed.

(** C3, amended: for every start address, when [needed_words = 0] the
    locator returns 0 and touches nothing: the state, and with it the trace
    of file operations, is the one it was called in, whatever the files
    are. *)
Theorem zero_words_returns_0_unread (fuel : nat) (free_space_a : Z) (st : pstate) :
  find_needed_words fuel 0 free_space_a st = (Ok 0, st).
Proof. reflexivity. Qed.

(** C2, on the code: a word that is not erased clears [start] but leaves
    [record] where it was.  After two erased words and a break [record] is
    still 2, and the first word of the next run re-opens [start] at offset
    12 with [record] at 2, not counted from scratch. *)
Theorem break_keeps_record :
  let s0 := {| sc_pos := 0; sc_record := 0; sc_start := None |} in
  let s2 := scan_step word_ff (scan_step word_ff s0) in
  let s3 := scan_step word_00 s2 in
  let s4 := scan_step word_ff s3 in
  (sc_record s2, sc_start s2) = (2, Some 0) /\
  (sc_record s3, sc_start s3) = (2, None) /\
  (sc_record s4, sc_start s4) = (2, Some 12).
Proof. vm_compute. repeat split. Qed.

(** C1, on the code: for the image of runs 2, 2 and 3 and a request of 3
    words from offset 0, the locator returns the address of offset 12, the
    start of the second run, which is only two words long; the first run of
    at least 3 erased words starts at offset 24. *)
Theorem locator_returns_short_run :
  fst (find_needed_words 9 3 0x08000000 (rom_only image_2_2_3)) = Ok 0x0800000C /\
  Z.lxor 12 offset_mask = 0x0800000C /\
  erased_run image_2_2_3 12 3 = false /\
  first_sufficient_run image_2_2_3 0 3 24.
Proof.
  split; [vm_compute; reflexivity|].
  split; [reflexivity|].
  split; [vm_compute; reflexivity|].
  unfold first_sufficient_run.
  split; [lia|]. split; [reflexivity|]. split; [vm_compute; reflexivity|].
  intros c Hc Hm. rewrite Z.sub_0_r in Hm.
  pose proof (Z.div_mod c 4 ltac:(lia)).
  assert (Hq : c / 4 = 0 \/ c / 4 = 1 \/ c / 4 = 2 \/ c / 4 = 3 \/
               c / 4 = 4 \/ c / 4 = 5) by lia.
  assert (Hcases : c = 0 \/ c = 4 \/ c = 8 \/ c = 12 \/ c = 16 \/ c = 20) by lia.
  destruct Hcases as [-> | [-> | [-> | [-> | [-> | ->]]]]];
    vm_compute; reflexivity.
Qed.

(** C4, on the code: the image of runs 2 and 2 holds no run of 3 erased
    words at any offset, yet a request of 3 words from offset 0 returns,
    after five reads, with the address of offset 12. *)
Theorem locator_returns_without_sufficient_run :
  fst (find_needed_words 5 3 0x08000000 (rom_only image_2_2)) = Ok 0x0800000C /\
  forall c, 0 <= c -> erased_run image_2_2 c 3 = false.
Proof.
  split; [vm_compute; reflexivity|].
  intros c Hc.
  destruct (Z_lt_le_dec c 20) as [Hlt|Hge].
  - rewrite <- (Z2Nat.id c) by lia.
    assert (Hn : (Z.to_nat c < 20)%nat) by lia.
    revert Hn. generalize (Z.to_nat c). intros n Hn.
    do 20 (destruct n as [|n]; [vm_compute; reflexivity|]). lia.
  - simpl. unfold read_at at 1.
    rewrite drop_ge by (change (length image_2_2) with 20%nat; lia).
    reflexivity.
Qed.

(** The spec's scenario, two words asked for: the first erased byte. *)
Example scenario_two_words :
  fst (find_needed_words 2 2 0x08000040 (rom_only image_scenario)) = Ok 0x08000040.
Proof. vm_compute. reflexivity. Qed.

(** The spec's scenario, five words asked for: the block of four is too
    short, the image runs out and the loop never exits. *)
Lemma scenario_five_words_diverges (fuel : nat) :
  fst (find_needed_words fuel 5 0x08000040 (rom_only image_scenario)) = Stop NoFuel.
Proof.
  rewrite (find_needed_words_scan image_scenario) by (vm_compute; congruence || reflexivity).
  cbn zeta.
  match goal with |- context [scan _ _ _ ?s ?t] => generalize t; intros st end.
  change (Z.lxor offset_mask 134217792) with 64.
  do 12 (destruct fuel as [|fuel]; [vm_compute; reflexivity|];
         rewrite scan_more by (simpl; lia);
         match goal with |- context [scan_step ?v ?s] =>
           let s' := eval vm_compute in (scan_step v s) in
           change (scan_step v s) with s' end).
  match goal with |- context [scan ?f ?n ?r ?s ?t] =>
    pose proof (scan_exhausted r n f s t) as Hx;
    destruct (scan f n r s t) as [[[a|]|o] st']
  end; simpl in Hx |- *;
    try (specialize (Hx ltac:(lia) ltac:(vm_compute; reflexivity) ltac:(lia)));
    congruence.
Qed.

(** ** The stages and the tools *)

Section FailFast.

Context {A B : Type}.

Lemma fail_fast_ret (a : A) : fail_fast (ret a).
Proof. intros st H. exact H. Qed.

Lemma fail_fast_bind (m : M A) (k : A -> M B) :
  fail_fast m -> (forall a, fail_fast (k a)) -> fail_fast (bind m k).
Proof.
  intros Hm Hk st H. unfold bind. specialize (Hm st H).
  destruct (m st) as [[a|o] st']; [apply Hk; exact Hm | exact Hm].
Qed.

Lemma fail_fast_sys_exit (code : Z) : fail_fast (@sys_exit A code).
Proof. intros st H. left. exact H. Qed.

Lemma fail_fast_raise (e : exn) : fail_fast (@raise A e).
Proof. intros st H. left. exact H. Qed.

Lemma fail_fast_out_of_fuel : fail_fast (@out_of_fuel A).
Proof. intros st H. left. exact H. Qed.

End FailFast.

Lemma fail_fast_log (e : event) : run_ok e -> fail_fast (log e).
Proof.
  intros He st H. simpl. apply Forall_app. split; [exact H|].
  constructor; [exact He | constructor].
Qed.

Lemma fail_fast_get_fs : fail_fast get_fs.
Proof. intros st H. exact H. Qed.

Lemma fail_fast_put_fs (fs : gmap string (list byte)) : fail_fast (put_fs fs).
Proof. intros st H. exact H. Qed.

(** The pattern of lines 102-104, 123-125 and 194-196: run, and leave with
    the tool's code if it is not 0. *)
Lemma fail_fast_run {A} (w : world) (argv : list string) (msg : string) (k : M A) :
  fail_fast k ->
  fail_fast (exit_code <~ subprocess_run w argv ;;
             if bool_decide (exit_code ≠ 0)
             then print msg ;;; sys_exit exit_code
             else k).
Proof.
  intros Hk st H. unfold bind at 1, subprocess_run.
  destruct (w_run w argv (st_fs st)) as [code fs'].
  case_bool_decide as Hc.
  - right. exists (st_trace st), argv, code, msg. simpl.
    rewrite <- app_assoc. auto.
  - apply Hk. simpl. apply Forall_app. split; [exact H|].
    constructor; [|constructor]. simpl. lia.
Qed.

Ltac fail_fast_go :=
  repeat first
    [ assumption
    | apply fail_fast_ret | apply fail_fast_sys_exit | apply fail_fast_raise
    | apply fail_fast_out_of_fuel | apply fail_fast_get_fs
    | apply fail_fast_put_fs
    | apply fail_fast_log; exact I
    | apply fail_fast_run
    | apply fail_fast_bind; [|intros]
    | match goal with
      | |- fail_fast (match ?x with _ => _ end) => destruct x
      | |- fail_fast (if ?b then _ else _) => destruct b
      | |- fail_fast (let _ := _ in _) => cbv zeta
      end ].

Lemma fail_fast_scan (fuel : nat) (needed_words : Z) (rom : list byte) (s : scan_state) :
  fail_fast (scan fuel needed_words rom s).
Proof.
  revert s. induction fuel as [|fuel IH]; intros s; simpl; fail_fast_go.
  apply IH.
Qed.

Lemma fail_fast_find_needed_words (fuel : nat) (needed_words free_space_a : Z) :
  fail_fast (find_needed_words fuel needed_words free_space_a).
Proof.
  unfold find_needed_words, open_r. fail_fast_go. apply fail_fast_scan.
Qed.

Lemma fail_fast_validate_config (w : world) : fail_fast (validate_config w).
Proof. unfold validate_config, print. fail_fast_go. Qed.

Lemma fail_fast_find_devkitarm (w : world) : fail_fast (find_devkitarm w).
Proof. unfold find_devkitarm, print. fail_fast_go. Qed.

Lemma fail_fast_compile_sources (w : world) (CC : string) (cflags files : list string)
    (long_calls : gset string) :
  fail_fast (compile_sources w CC cflags files long_calls).
Proof.
  revert long_calls. induction files as [|f files IH]; intros lc; simpl.
  - fail_fast_go.
  - apply fail_fast_run. apply IH.
Qed.

Lemma fail_fast_compile_stage (w : world) (CC : string) (cflags : list string) :
  fail_fast (compile_stage w CC cflags).
Proof.
  unfold compile_stage. fail_fast_go. apply fail_fast_compile_sources.
Qed.

Lemma fail_fast_merge_stage (w : world) (LD : string) (long_calls : gset string) :
  fail_fast (merge_stage w LD long_calls).
Proof. unfold merge_stage, open_w. fail_fast_go. Qed.

Lemma fail_fast_allocation_request (free_space_n reserve_n : Z) :
  fail_fast (allocation_request free_space_n reserve_n).
Proof. unfold allocation_request, stat_size. fail_fast_go. Qed.

Lemma fail_fast_find_armips (w : world) : fail_fast (find_armips w).
Proof. unfold find_armips, print. fail_fast_go. Qed.

Lemma fail_fast_write (path text : string) : fail_fast (write path text).
Proof. unfold write. fail_fast_go. Qed.

Lemma fail_fast_write_defines (out : string) (ds : list (string * option string)) :
  fail_fast (write_defines out ds).
Proof.
  induction ds as [|d ds IH]; simpl; fail_fast_go.
Qed.

Lemma fail_fast_patch_source (fuel : nat) (w : world) (needed_words free_space_a : Z) :
  fail_fast (patch_source fuel w needed_words free_space_a).
Proof.
  unfold patch_source, open_r, open_w, write_bytes.
  fail_fast_go;
    try first [ apply fail_fast_write | apply fail_fast_find_needed_words
              | apply fail_fast_write_defines ].
Qed.

Lemma fail_fast_assemble_stage (w : world) (ARMIPS : string) (needed_words : Z) :
  fail_fast (assemble_stage w ARMIPS needed_words).
Proof. unfold assemble_stage. fail_fast_go. Qed.

Lemma fail_fast_script (fuel : nat) (w : world) : fail_fast (script fuel w).
Proof.
  unfold script, rmtree, mkdir, copy.
  fail_fast_go;
    try first [ apply fail_fast_validate_config | apply fail_fast_find_devkitarm
          | apply fail_fast_compile_stage | apply fail_fast_merge_stage
          | apply fail_fast_allocation_request | apply fail_fast_find_armips
          | apply fail_fast_patch_source | apply fail_fast_assemble_stage
          | apply fail_fast_find_needed_words | apply fail_fast_write_defines ].
Qed.

Lemma failing_run_is_last (pre pre' post : list event) (argv argv' : list string)
    (code code' : Z) (msg : string) :
  pre ++ EvRun argv code :: post = pre' ++ [EvRun argv' code'; EvPrint msg] ->
  code <> 0 -> Forall run_ok pre' ->
  pre = pre' /\ argv = argv' /\ code = code' /\ post = [EvPrint msg].
Proof.
  revert pre'. induction pre as [|e pre IH]; intros pre' Heq Hc Hok.
  - destruct pre' as [|e' pre']; simpl in Heq.
    + injection Heq as -> -> ->. auto.
    + injection Heq as <- _. inversion Hok as [|? ? He _]. simpl in He. lia.
  - destruct pre' as [|e' pre']; simpl in Heq.
    + injection Heq as -> Heq. destruct pre as [|e2 pre]; simpl in Heq.
      * discriminate.
      * injection Heq as _ Heq. destruct pre; discriminate.
    + injection Heq as -> Heq. inversion Hok as [|? ? _ Hok'].
      destruct (IH pre' Heq Hc Hok') as (-> & -> & -> & ->). auto.
Qed.

(** C7: in every run in which an external tool (compiler, linker or
    assembler) exits with a code other than 0, the script ends with exactly
    that code; nothing follows the failing invocation in the trace but the
    one line printed about it (no later stage, no second attempt), and every
    tool run before it had succeeded. *)
Theorem tool_failure_aborts (fuel : nat) (w : world) (pre post : list event)
    (argv : list string) (code : Z) :
  st_trace (snd (main fuel w)) = pre ++ EvRun argv code :: post ->
  code <> 0 ->
  fst (main fuel w) = Exit code /\
  (exists msg, post = [EvPrint msg]) /\
  Forall run_ok pre.
Proof.
  intros Htr Hc. unfold main in *.
  pose proof (fail_fast_script fuel w {| st_fs := w_files w; st_trace := [] |}
                (List.Forall_nil _)) as Hff.
  destruct (script fuel w _) as [[[]|o] st]; simpl in *.
  - rewrite Htr in Hff. apply Forall_app in Hff as [_ Hff].
    inversion Hff as [|? ? He _]. simpl in He. contradiction.
  - destruct Hff as [Hff | (pre' & argv' & code' & msg & Heq & Hok & Hc' & ->)].
    + rewrite Htr in Hff. apply Forall_app in Hff as [_ Hff].
      inversion Hff as [|? ? He _]. simpl in He. contradiction.
    + rewrite Htr in Heq.
      destruct (failing_run_is_last _ _ _ _ _ _ _ _ Heq Hc Hok)
        as (-> & -> & -> & ->).
      split; [reflexivity|]. split; [eexists; reflexivity | exact Hok].
Qed.

Lemma tool_failure_aborts_witness :
  fst (main 0 failing_world) = Exit 2 /\
  (exists msg, skipn 4 (st_trace (snd (main 0 failing_world))) = [EvPrint msg]) /\
  Forall run_ok (firstn 3 (st_trace (snd (main 0 failing_world)))).
Proof.
  eapply (tool_failure_aborts 0 failing_world
            (firstn 3 (st_trace (snd (main 0 failing_world))))
            (skipn 4 (st_trace (snd (main 0 failing_world))))).
  - vm_compute. reflexivity.
  - lia.
Defined.


(** ** Configuration errors *)

Section Validation.

Variable w : world.
Variable fuel : nat.

Let start : pstate := {| st_fs := w_files w; st_trace := [] |}.

Lemma main_stops_in_validation (o : outcome) (st : pstate) :
  validate_config w start = (Stop o, st) -> main fuel w = (o, st).
Proof.
  intros H. unfold main, script. fold start. unfold bind at 1. rewrite H.
  reflexivity.
Qed.

(** X17: a [free-space] string that is not a hexadecimal integer ends the
    run with exit code 1; the one line printed names the string, and nothing
    else has happened. *)
Lemma malformed_free_space_exits_1 (s : string) :
  free_space (w_config w) = Some s -> w_int16 w s = None ->
  main fuel w =
  (Exit 1, logged (EvPrint ("Error :: " +:+ s +:+ " is not a hexadecimal integer."))
                  start).
Proof.
  intros Hf Hp. apply main_stops_in_validation.
  unfold validate_config. rewrite Hf, Hp. reflexivity.
Qed.

(** X18: after a good [free-space], a [reserve] string that is not a
    decimal integer ends the run with exit code 1; the one line printed
    names the string, and nothing else has happened. *)
Lemma malformed_reserve_exits_1 (s0 s : string) (n : Z) :
  free_space (w_config w) = Some s0 -> w_int16 w s0 = Some n ->
  reserve (w_config w) = Some s -> w_int10 w s = None ->
  main fuel w =
  (Exit 1, logged (EvPrint ("Error :: " +:+ s +:+ " is not a decimal integer."))
                  start).
Proof.
  intros Hf Hp Hr Hq. apply main_stops_in_validation.
  unfold validate_config. rewrite Hf, Hp, Hr, Hq. reflexivity.
Qed.

(** X19: after good numbers, an optimization level outside the accepted
    set ends the run with exit code 1 and one line naming it; a key without
    a value is named [None]. *)
Lemma unknown_level_exits_1 (s0 s1 : string) (n r : Z) :
  free_space (w_config w) = Some s0 -> w_int16 w s0 = Some n ->
  reserve (w_config w) = Some s1 -> w_int10 w s1 = Some r ->
  optimization_level (w_config w) ∉ (Some <$> optimization_levels) ->
  main fuel w =
  (Exit 1, logged (EvPrint ("Error :: " +:+ fmt (optimization_level (w_config w)) +:+
                            " is not an understood optimization level."))
                  start).
Proof.
  intros Hf Hp Hr Hq Hl. apply main_stops_in_validation.
  unfold validate_config. rewrite Hf, Hp, Hr, Hq.
  destruct (optimization_level (w_config w)) as [level|] eqn:E; [|reflexivity].
  unfold bind at 1, ret. unfold bind at 1.
  case_bool_decide as Hin; [|reflexivity].
  exfalso. apply Hl. apply list_elem_of_fmap. exists level. auto.
Qed.

(** A [reserve] key without a value, after a good [free-space]. *)
Lemma valueless_reserve_raises (s0 : string) (n : Z) :
  free_space (w_config w) = Some s0 -> w_int16 w s0 = Some n ->
  reserve (w_config w) = None ->
  main fuel w = (Uncaught TypeError, start).
Proof.
  intros Hf Hp Hr. apply main_stops_in_validation.
  unfold validate_config. rewrite Hf, Hp, Hr. reflexivity.
Qed.

(** C10, on the code: a [free-space] key without a value makes
    [int(None, 16)] raise [TypeError], which [except ValueError] does not
    catch: the run ends in the uncaught exception, with nothing printed by
    the script and no tool started. *)
Theorem valueless_free_space_raises :
  free_space (w_config w) = None ->
  main fuel w = (Uncaught TypeError, start).
Proof.
  intros Hf. apply main_stops_in_validation.
  unfold validate_config. rewrite Hf. reflexivity.
Qed.

End Validation.

Lemma valueless_free_space_raises_witness :
  main 0 valueless_world =
  (Uncaught TypeError, {| st_fs := w_files valueless_world; st_trace := [] |}).
Proof. apply (valueless_free_space_raises valueless_world 0). reflexivity. Defined.

(** ** Compiling and merging *)

Lemma runs_app (tr1 tr2 : list event) : runs (tr1 ++ tr2) = runs tr1 ++ runs tr2.
Proof. apply omap_app. Qed.

Section Merge.

Variable w : world.


(** Where no two long-call sources share an object name, an object is
    handed to the linker exactly when its source is a long-call one. *)
Lemma object_in_link_inputs (long_calls : gset string) (f : string) :
  (forall g, g ∈ long_calls -> object_of g = object_of f -> g = f) ->
  object_of f ∈ (object_of <$> elements long_calls) <-> f ∈ long_calls.
Proof.
  intros Hinj. rewrite list_elem_of_fmap. split.
  - intros (g & Hg & Hin). apply elem_of_elements in Hin.
    rewrite <- (Hinj g Hin (eq_sym Hg)). exact Hin.
  - intros Hin. exists f. split; [reflexivity|]. apply elem_of_elements. exact Hin.
Qed.

(** C9: with no long-call source the merge stage leaves [relocatable.o] on
    disk with no bytes in it, runs no tool, and goes on; the size computation
    that follows takes its 0 bytes like any other size. *)
Theorem empty_long_calls_skips_linker (LD : string) (free_space_n reserve_n : Z)
    (st : pstate) :
  let st1 := {| st_fs := <[relocatable := []]> (st_fs st);
                st_trace := st_trace st ++ [EvOpen relocatable "w"] |} in
  merge_stage w LD ∅ st = (Ok tt, st1) /\
  st_fs st1 !! relocatable = Some [] /\
  runs (st_trace st1) = runs (st_trace st) /\
  allocation_request free_space_n reserve_n st1 =
    (Ok (needed_words_of 0 reserve_n, normalize_free_space free_space_n),
     logged (EvStat relocatable) st1).
Proof.
  intros st1. repeat split.
  - apply lookup_insert_eq.
  - simpl. rewrite runs_app. apply app_nil_r.
  - unfold allocation_request, stat_size, bind, get_fs. simpl.
    rewrite lookup_insert_eq. reflexivity.
Qed.

End Merge.

(** C8, on the code: [x.c.c] is listed in [short-calls] and is compiled
    with [-mno-long-calls], yet its object [build/src/x.o.o] is what the
    linker is given, because the long-call source [x.o.c] is compiled to
    the same name; with [x.c.c] compiled last the file holds the short-call
    code. *)
Theorem short_call_object_is_linked :
  let cc := ["/opt/bin/arm-none-eabi-gcc"%string] ++ CFLAGS "-O2" [] in
  let run := main 10 colliding_world in
  fst run = Exit 0 /\
  runs (st_trace (snd run)) =
  [ cc ++ ["-mlong-calls"; "src/x.o.c"; "-o"; "build/src/x.o.o"]%string;
    cc ++ ["-mno-long-calls"; "src/x.c.c"; "-o"; "build/src/x.o.o"]%string;
    ["/opt/bin/arm-none-eabi-ld"; "--relocatable"; "build/src/x.o.o";
     "-o"; "build/src/relocatable.o"]%string;
    ["/opt/bin/armips"; "-sym"; "test.sym"; "build/main.asm";
     "-equ"; "allocation_size"; "16"]%string ] /\
  "x.c.c"%string ∈ short_calls (w_config colliding_world) /\
  object_of "x.c.c" = "build/src/x.o.o"%string /\
  st_fs (snd run) !! "build/src/x.o.o"%string =
    Some (String.list_byte_of_string "src/x.c.c").
Proof.
  intros cc run. split; [vm_compute; reflexivity|].
  split; [vm_compute; reflexivity|].
  split; [|split; vm_compute; reflexivity].
  change ("x.c.c"%string ∈ ({[ "x.c.c"%string ]} : gset string)).
  apply elem_of_singleton. reflexivity.
Qed.

(** ** Addresses and sizes *)

Section Addresses.

(** Bit 27 of [x], as [Z.land] sees it. *)
Lemma land_offset_mask (x : Z) :
  Z.land x offset_mask = offset_mask * ((x / offset_mask) mod 2).
Proof.
  change offset_mask with (2 ^ 27).
  rewrite <- (Z.testbit_spec' x 27) by lia.
  apply Z.bits_inj'. intros n Hn.
  rewrite Z.land_spec, Z.pow2_bits_eqb by lia.
  destruct (Z.testbit x 27) eqn:E; simpl Z.b2z.
  - rewrite Z.mul_1_r, Z.pow2_bits_eqb by lia.
    destruct (Z.eqb_spec 27 n) as [<-|]; [rewrite E; reflexivity|].
    apply andb_false_r.
  - rewrite Z.mul_0_r, Z.bits_0.
    destruct (Z.eqb_spec 27 n) as [<-|]; [rewrite E; reflexivity|].
    apply andb_false_r.
Qed.

Lemma round_up_to_4_bounds (x : Z) :
  round_up_to_4 x mod 4 = 0 /\ x <= round_up_to_4 x < x + 4.
Proof.
  rewrite round_up_to_4_closed.
  pose proof (Z.div_mod (x + 3) 4 ltac:(lia)).
  pose proof (Z.mod_pos_bound (x + 3) 4 ltac:(lia)).
  split; [rewrite Z.mul_comm; apply Z.mod_mul; lia | lia].
Qed.

(** X1: the byte count handed to the assembler, [needed_words << 2], is the
    blob size plus the reserve rounded up to the next multiple of 4 (for
    every integer, negative ones included): never less than what was asked
    for, and less than 4 bytes more. *)
Theorem allocation_size_rounds_up (st_size reserve_n : Z) :
  Z.shiftl (needed_words_of st_size reserve_n) 2 = round_up_to_4 (st_size + reserve_n) /\
  st_size + reserve_n <= Z.shiftl (needed_words_of st_size reserve_n) 2
                      < st_size + reserve_n + 4.
Proof.
  unfold needed_words_of.
  destruct (round_up_to_4_bounds (st_size + reserve_n)) as [Hm Hb].
  rewrite Z.shiftl_mul_pow2, Z.shiftr_div_pow2 by lia. change (2 ^ 2) with 4.
  pose proof (Z.div_mod (round_up_to_4 (st_size + reserve_n)) 4 ltac:(lia)).
  lia.
Qed.

(** X2: a [free-space] up to 0x07FFFFFC may be written as a file offset or
    as the address with bit 27 set: both normalize to the same address, and
    the locator seeks to the offset rounded up to a multiple of 4. *)
Theorem free_space_address_or_offset (f : Z) :
  0 <= f <= 0x07FFFFFC ->
  normalize_free_space f = round_up_to_4 f + offset_mask /\
  normalize_free_space (f + offset_mask) = round_up_to_4 f + offset_mask /\
  Z.lxor offset_mask (normalize_free_space f) = round_up_to_4 f.
Proof.
  intros Hf. unfold normalize_free_space.
  assert (Hm : offset_mask = 134217728) by reflexivity.
  assert (Hlor : forall x, 0 <= x < offset_mask ->
                 Z.lor x offset_mask = x + offset_mask /\
                 Z.lor (x + offset_mask) offset_mask = x + offset_mask).
  { intros x Hx.
    pose proof (Z.add_lor_land x offset_mask).
    pose proof (Z.add_lor_land (x + offset_mask) offset_mask).
    rewrite land_offset_mask in *.
    replace (x / offset_mask) with 0 in * by (symmetry; apply Z.div_small; lia).
    replace ((x + offset_mask) / offset_mask) with 1 in *
      by (apply (Z.div_unique _ _ 1 x); lia).
    change (0 mod 2) with 0 in *. change (1 mod 2) with 1 in *. lia. }
  destruct (Hlor f ltac:(lia)) as [-> ->].
  assert (Hr : round_up_to_4 (f + offset_mask) = round_up_to_4 f + offset_mask).
  { rewrite !round_up_to_4_closed.
    replace (f + offset_mask + 3) with (f + 3 + 33554432 * 4) by lia.
    rewrite Z.div_add by lia. lia. }
  rewrite Hr. repeat split.
  destruct (round_up_to_4_bounds f) as [_ Hb].
  pose proof (Z.add_lxor_2land offset_mask (round_up_to_4 f + offset_mask)) as Hx.
  rewrite Z.land_comm, land_offset_mask in Hx.
  replace ((round_up_to_4 f + offset_mask) / offset_mask) with 1 in Hx.
  - change (1 mod 2) with 1 in Hx. lia.
  - apply (Z.div_unique _ _ 1 (round_up_to_4 f)).
    + destruct (round_up_to_4_bounds f) as [Hmod _].
      pose proof (Z.div_mod (round_up_to_4 f) 4 ltac:(lia)). lia.
    + lia.
Qed.

Lemma free_space_address_or_offset_witness :
  normalize_free_space 0x800001 = round_up_to_4 0x800001 + offset_mask /\
  normalize_free_space (0x800001 + offset_mask) = round_up_to_4 0x800001 + offset_mask /\
  Z.lxor offset_mask (normalize_free_space 0x800001) = round_up_to_4 0x800001.
Proof. apply (free_space_address_or_offset 0x800001). lia. Defined.

(** X3: for every non-negative [free-space] the offset the locator seeks to
    is non-negative and a multiple of 4. *)
Theorem seek_offset_aligned (f : Z) :
  0 <= f ->
  0 <= Z.lxor offset_mask (normalize_free_space f) /\
  Z.lxor offset_mask (normalize_free_space f) mod 4 = 0.
Proof.
  intros Hf. unfold normalize_free_space.
  assert (Hm : offset_mask = 134217728) by reflexivity.
  set (y := round_up_to_4 (Z.lor f offset_mask)).
  destruct (round_up_to_4_bounds (Z.lor f offset_mask)) as [Hmod Hb]. fold y in Hmod, Hb.
  assert (Hl : 0 <= Z.lor f offset_mask) by (apply Z.lor_nonneg; lia).
  split.
  - apply Z.lxor_nonneg. lia.
  - pose proof (Z.add_lxor_2land offset_mask y) as Hx.
    rewrite Z.land_comm, land_offset_mask in Hx.
    pose proof (Z.mod_pos_bound (y / offset_mask) 2 ltac:(lia)).
    pose proof (Z.div_mod y 4 ltac:(lia)).
    set (b := (y / offset_mask) mod 2) in *. clearbody b y. rewrite Hm in *.
    replace (Z.lxor 134217728 y)
      with ((33554432 + y / 4 - 2 * 33554432 * b) * 4) by lia.
    apply Z.mod_mul. lia.
Qed.

Lemma seek_offset_aligned_witness :
  0 <= Z.lxor offset_mask (normalize_free_space 0x08800001) /\
  Z.lxor offset_mask (normalize_free_space 0x08800001) mod 4 = 0.
Proof. apply (seek_offset_aligned 0x08800001). lia. Defined.

End Addresses.

(** ** What computations touch *)

Section Footprint.

Variable Pev : event -> Prop.
Variable Rfs : gmap string (list byte) -> gmap string (list byte) -> Prop.
Hypothesis Rfs_refl : forall fs, Rfs fs fs.
Hypothesis Rfs_trans : forall a b c, Rfs a b -> Rfs b c -> Rfs a c.

Lemma footprint_pure {A} (m : M A) :
  (forall st, snd (m st) = st) -> footprint Pev Rfs m.
Proof.
  intros H st. rewrite H. split; [apply Rfs_refl|].
  exists []. rewrite app_nil_r. split; [reflexivity | constructor].
Qed.

Lemma footprint_ret {A} (a : A) : footprint Pev Rfs (ret a).
Proof. apply footprint_pure. reflexivity. Qed.

Lemma footprint_sys_exit {A} (code : Z) : footprint Pev Rfs (@sys_exit A code).
Proof. apply footprint_pure. reflexivity. Qed.

Lemma footprint_raise {A} (e : exn) : footprint Pev Rfs (@raise A e).
Proof. apply footprint_pure. reflexivity. Qed.

Lemma footprint_out_of_fuel {A} : footprint Pev Rfs (@out_of_fuel A).
Proof. apply footprint_pure. reflexivity. Qed.

Lemma footprint_get_fs : footprint Pev Rfs get_fs.
Proof. apply footprint_pure. reflexivity. Qed.

Lemma footprint_log (e : event) : Pev e -> footprint Pev Rfs (log e).
Proof.
  intros He st. split; [apply Rfs_refl|].
  exists [e]. split; [reflexivity | repeat constructor; exact He].
Qed.

Lemma footprint_bind {A B} (m : M A) (k : A -> M B) :
  footprint Pev Rfs m -> (forall a, footprint Pev Rfs (k a)) ->
  footprint Pev Rfs (bind m k).
Proof.
  intros Hm Hk st. unfold bind. specialize (Hm st).
  destruct (m st) as [[a|o] st1]; simpl in Hm; [|exact Hm].
  destruct Hm as (Hfs & evs & Htr & Hev).
  destruct (Hk a st1) as (Hfs' & evs' & Htr' & Hev').
  split; [eapply Rfs_trans; eassumption|].
  exists (evs ++ evs'). split.
  - rewrite Htr', Htr, app_assoc. reflexivity.
  - apply Forall_app. auto.
Qed.

End Footprint.

Ltac footprint_go :=
  repeat first
    [ assumption
    | apply footprint_ret; assumption
    | apply footprint_sys_exit; assumption
    | apply footprint_raise; assumption
    | apply footprint_out_of_fuel; assumption
    | apply footprint_get_fs; assumption
    | apply footprint_bind; [assumption | | intros]
    | match goal with
      | |- footprint _ _ (match ?x with _ => _ end) => destruct x
      | |- footprint _ _ (if ?b then _ else _) => destruct b
      | |- footprint _ _ (let _ := _ in _) => cbv zeta
      end ].

Lemma footprint_scan (fuel : nat) (needed_words : Z) (rom : list byte) (s : scan_state) :
  footprint rom_event eq (scan fuel needed_words rom s).
Proof.
  assert (Hr : forall fs : gmap string (list byte), fs = fs) by reflexivity.
  assert (Ht : forall a b c : gmap string (list byte), a = b -> b = c -> a = c)
    by (intros; congruence).
  revert s. induction fuel as [|fuel IH]; intros s; simpl; footprint_go.
  - apply footprint_log; [assumption | simpl; auto].
  - apply IH.
Qed.

Lemma footprint_find_needed_words (fuel : nat) (needed_words free_space_a : Z) :
  footprint rom_event eq (find_needed_words fuel needed_words free_space_a).
Proof.
  assert (Hr : forall fs : gmap string (list byte), fs = fs) by reflexivity.
  assert (Ht : forall a b c : gmap string (list byte), a = b -> b = c -> a = c)
    by (intros; congruence).
  unfold find_needed_words, open_r. footprint_go;
    try (apply footprint_log; [assumption | simpl; auto]).
  apply footprint_scan.
Qed.

(** X4: the locator only reads: whatever its arguments and however it ends,
    it leaves every file as it was, and all it adds to the trace are the
    opening of [rom.gba], one seek and reads of four bytes. *)
Theorem find_needed_words_read_only (fuel : nat) (needed_words free_space_a : Z)
    (st : pstate) :
  let r := find_needed_words fuel needed_words free_space_a st in
  st_fs (snd r) = st_fs st /\
  exists evs, st_trace (snd r) = st_trace st ++ evs /\ Forall rom_event evs.
Proof.
  cbv zeta.
  destruct (footprint_find_needed_words fuel needed_words free_space_a st)
    as [Hfs Htr].
  split; [symmetry; exact Hfs | exact Htr].
Qed.

(** ** What the locator returns *)

Section LocatorResult.

Variable rom : list byte.
Variable needed_words : Z.
Variable off : Z.

Lemma scan_step_sound (s : scan_state) :
  scan_sound rom off s ->
  scan_sound rom off (scan_step (read_at rom (sc_pos s) 4) s).
Proof.
  intros (Hp & Hal & Hst). unfold scan_sound, scan_step.
  pose proof (read_at_length rom (sc_pos s)) as Hlen.
  destruct (is_erased (read_at rom (sc_pos s) 4)) eqn:He.
  - pose proof (is_erased_length _ He) as H4. rewrite H4.
    assert (Hj : exists j : nat, sc_pos s = off + 4 * Z.of_nat j).
    { destruct Hal as [Hj|Hend]; [exact Hj | lia]. }
    destruct Hj as [j Hj].
    assert (Hnext : exists j' : nat, sc_pos s + Z.of_nat 4 = off + 4 * Z.of_nat j')
      by (exists (S j); lia).
    destruct (sc_start s) as [a0|] eqn:Es; simpl.
    + split; [lia|]. split; [left; exact Hnext|]. exact Hst.
    + split; [lia|]. split; [left; exact Hnext|].
      intros a [= <-]. replace (sc_pos s + Z.of_nat 4 - 4) with (sc_pos s) by lia.
      split; [exists j; exact Hj | exact He].
  - simpl. split; [lia|]. split; [|intros a [=]].
    destruct (Nat.eq_dec (length (read_at rom (sc_pos s) 4)) 4%nat) as [H4|H4].
    + rewrite H4. destruct Hal as [[j Hj]|Hend]; [|lia].
      left. exists (S j). lia.
    + right. lia.
Qed.

Lemma scan_returns_erased_word (fuel : nat) (s : scan_state) (st st' : pstate) (a : Z) :
  scan_sound rom off s ->
  scan fuel needed_words rom s st = (Ok (Some a), st') ->
  erased_word_at rom off a.
Proof.
  revert s st. induction fuel as [|fuel IH]; intros s st Hs H.
  - destruct (Z_lt_le_dec (sc_record s) needed_words).
    + rewrite (scan_no_fuel rom) in H by lia. discriminate.
    + rewrite (scan_done rom) in H by lia. injection H as Ha _.
      apply Hs. exact Ha.
  - destruct (Z_lt_le_dec (sc_record s) needed_words).
    + rewrite (scan_more rom) in H by lia.
      eapply IH; [|exact H]. apply scan_step_sound. exact Hs.
    + rewrite (scan_done rom) in H by lia. injection H as Ha _.
      apply Hs. exact Ha.
Qed.

End LocatorResult.

(** X5: whenever the locator returns for a non-zero request, the address is
    that of a word of the image that is erased and lies a whole number of
    words after the offset the scan started at. *)
Theorem find_needed_words_returns_erased_word (fuel : nat) (rom : list byte)
    (needed_words free_space_a a : Z) (st st' : pstate) :
  needed_words <> 0 ->
  st_fs st !! "rom.gba"%string = Some rom ->
  find_needed_words fuel needed_words free_space_a st = (Ok a, st') ->
  exists p, a = Z.lxor p offset_mask /\
            erased_word_at rom (Z.lxor offset_mask free_space_a) p.
Proof.
  intros Hn Hrom H.
  destruct (Z_lt_le_dec (Z.lxor offset_mask free_space_a) 0) as [Hneg|Hoff].
  { unfold find_needed_words in H. apply Z.eqb_neq in Hn. rewrite Hn in H.
    unfold bind at 1, open_r, bind at 1, get_fs in H. rewrite Hrom in H.
    unfold bind at 1, log, ret in H. unfold bind at 1 in H.
    replace (Z.lxor offset_mask free_space_a <? 0) with true in H
      by (symmetry; apply Z.ltb_lt; lia).
    discriminate H. }
  rewrite (find_needed_words_scan rom) in H by assumption. cbn zeta in H.
  match type of H with context [scan ?f ?n ?r ?s ?t] =>
    destruct (scan f n r s t) as [[[p|]|o] st1] eqn:Hs
  end; try discriminate H.
  injection H as <- _. exists p. split; [reflexivity|].
  eapply scan_returns_erased_word; [|exact Hs].
  unfold scan_sound. simpl. split; [lia|]. split; [left; exists 0%nat; lia|].
  intros ? [=].
Qed.

Lemma find_needed_words_returns_erased_word_witness :
  exists p, 0x08000018 = Z.lxor p offset_mask /\
            erased_word_at image_2_2_3 (Z.lxor offset_mask 0x08000000) p.
Proof.
  eapply (find_needed_words_returns_erased_word 9 image_2_2_3 4 0x08000000
            0x08000018 (rom_only image_2_2_3)).
  - lia.
  - reflexivity.
  - vm_compute. reflexivity.
Defined.

Section LocatorRuns.

Variable rom : list byte.
Variable needed_words : Z.








End LocatorRuns.





Lemma find_needed_words_terminates_witness :
  exists fuel a, fst (find_needed_words fuel 3 0x08000000 (rom_only image_2_2_3)) = Ok a.
Proof.
  apply (find_needed_words_terminates image_2_2_3 3 6 0x08000000 (rom_only image_2_2_3)).
  - lia.
  - reflexivity.
  - vm_compute. discriminate.
  - reflexivity.
Defined.


(** ** Object names *)

Section Names.

Lemma replace_plain_stem (stem : string) :
  plain_stem stem = true ->
  replace (stem +:+ ".c") ".c" ".o" = stem +:+ ".o".
Proof.
  unfold replace. induction stem as [|a r IH]; intros H; [reflexivity|].
  simpl in H. apply andb_true_iff in H as [H Hr]. apply andb_true_iff in H as [Hd _].
  apply negb_true_iff in Hd.
  change (String a r +:+ ".c") with (String a (r +:+ ".c")).
  change (String a r +:+ ".o") with (String a (r +:+ ".o")).
  cbn [replace_from]. 
  replace (String.prefix ".c" (String a (r +:+ ".c"))) with false.
  - rewrite IH by exact Hr. reflexivity.
  - cbn [String.prefix]. destruct (Ascii.ascii_dec "." a) as [<-|Hne].
    + rewrite Ascii.eqb_refl in Hd. discriminate.
    + reflexivity.
Qed.

Lemma object_of_plain_stem (stem : string) :
  plain_stem stem = true ->
  object_of (stem +:+ ".c") = "build/src/" +:+ stem +:+ ".o".
Proof.
  intros H. unfold object_of. rewrite replace_plain_stem by exact H.
  unfold path_join. cbn [foldl]. unfold join2.
  replace (String.prefix "/" (stem +:+ ".o")) with false; [reflexivity|].
  destruct stem as [|a r]; [reflexivity|].
  simpl in H. apply andb_true_iff in H as [H _].
  apply andb_true_iff in H as [_ Hs]. apply negb_true_iff in Hs.
  change (String a r +:+ ".o") with (String a (r +:+ ".o")).
  cbn [String.prefix].
  destruct (Ascii.ascii_dec "/" a) as [<-|Hne]; [|reflexivity].
  rewrite Ascii.eqb_refl in Hs. discriminate.
Qed.

(** X10: for a source whose name is a stem without [.] and [/] followed by
    [.c], the object file is [build/src/] with the extension swapped, and
    two such sources never share an object file. *)
Theorem object_of_plain_names (stem1 stem2 : string) :
  plain_stem stem1 = true -> plain_stem stem2 = true ->
  fnmatch_c (stem1 +:+ ".c") = true /\
  object_of (stem1 +:+ ".c") = "build/src/" +:+ stem1 +:+ ".o" /\
  (object_of (stem1 +:+ ".c") = object_of (stem2 +:+ ".c") -> stem1 = stem2).
Proof.
  intros H1 H2. split; [|split; [apply object_of_plain_stem; exact H1|]].
  - unfold fnmatch_c. clear. induction stem1 as [|a r IH]; [reflexivity|].
    change (String a r +:+ ".c") with (String a (r +:+ ".c")).
    cbn [endswith]. rewrite IH. apply orb_true_r.
  - intros H.
    rewrite (object_of_plain_stem stem1 H1), (object_of_plain_stem stem2 H2) in H.
    assert (Hcancel : forall p a b : string, p +:+ a = p +:+ b -> a = b).
    { induction p as [|c p IHp]; intros a b Hab; [exact Hab|].
      simpl in Hab. injection Hab as Hab. apply IHp. exact Hab. }
    apply Hcancel in H. clear Hcancel.
    revert stem2 H2 H. induction stem1 as [|a r IH]; intros [|b s] H2 H; simpl in H.
    + reflexivity.
    + injection H as <- _. simpl in H2. discriminate.
    + injection H as -> _. simpl in H1. discriminate.
    + injection H as -> H. f_equal.
      simpl in H1, H2. apply andb_true_iff in H1 as [_ H1].
      apply andb_true_iff in H2 as [_ H2]. apply IH; assumption.
Qed.

Lemma object_of_plain_names_witness :
  fnmatch_c ("main" +:+ ".c") = true /\
  object_of ("main" +:+ ".c") = "build/src/" +:+ "main" +:+ ".o" /\
  (object_of ("main" +:+ ".c") = object_of ("util" +:+ ".c") ->
   "main"%string = "util"%string).
Proof. apply (object_of_plain_names "main" "util"); reflexivity. Defined.

End Names.



(** ** Printed lines and exit codes *)

Section Disciplined.

Lemma disciplined_ret {A} (a : A) : disciplined (ret a).
Proof. intros st H. exact H. Qed.

Lemma disciplined_bind {A B} (m : M A) (k : A -> M B) :
  disciplined m -> (forall a, disciplined (k a)) -> disciplined (bind m k).
Proof.
  intros Hm Hk st H. unfold bind. specialize (Hm st H).
  destruct (m st) as [[a|o] st']; [apply Hk; exact Hm | exact Hm].
Qed.

Lemma disciplined_raise {A} (e : exn) : disciplined (@raise A e).
Proof. intros st H. left. split; [exact H | discriminate]. Qed.

Lemma disciplined_out_of_fuel {A} : disciplined (@out_of_fuel A).
Proof. intros st H. left. split; [exact H | discriminate]. Qed.

Lemma disciplined_get_fs : disciplined get_fs.
Proof. intros st H. exact H. Qed.

Lemma disciplined_put_fs (fs : gmap string (list byte)) : disciplined (put_fs fs).
Proof. intros st H. exact H. Qed.

Lemma disciplined_log (e : event) : ~ is_print e -> disciplined (log e).
Proof.
  intros He st H. simpl. apply Forall_app. split; [exact H|].
  constructor; [exact He | constructor].
Qed.

(** [print(...); sys.exit(code)] with a code other than 0. *)
Lemma disciplined_die {A} (msg : string) (code : Z) :
  code <> 0 -> disciplined (print msg ;;; @sys_exit A code).
Proof.
  intros Hc st H. right. exists (st_trace st), msg, code. auto.
Qed.

Lemma disciplined_run {A} (w : world) (argv : list string) (msg : string) (k : M A) :
  disciplined k ->
  disciplined (exit_code <~ subprocess_run w argv ;;
               if bool_decide (exit_code ≠ 0)
               then print msg ;;; sys_exit exit_code
               else k).
Proof.
  intros Hk st H. unfold bind at 1, subprocess_run.
  destruct (w_run w argv (st_fs st)) as [code fs'].
  assert (Hs : silent (st_trace st ++ [EvRun argv code])).
  { apply Forall_app. split; [exact H|]. repeat constructor. simpl. tauto. }
  case_bool_decide as Hc.
  - right. exists (st_trace st ++ [EvRun argv code]), msg, code. simpl. auto.
  - apply Hk. exact Hs.
Qed.

End Disciplined.

Ltac disciplined_go :=
  repeat first
    [ assumption
    | apply disciplined_ret | apply disciplined_raise
    | apply disciplined_out_of_fuel | apply disciplined_get_fs
    | apply disciplined_put_fs
    | apply disciplined_die; lia
    | apply disciplined_log; simpl; tauto
    | apply disciplined_run
    | apply disciplined_bind; [|intros]
    | match goal with
      | |- disciplined (match ?x with _ => _ end) => destruct x
      | |- disciplined (if ?b then _ else _) => destruct b
      | |- disciplined (let _ := _ in _) => cbv zeta
      end ].

Lemma disciplined_scan (fuel : nat) (needed_words : Z) (rom : list byte) (s : scan_state) :
  disciplined (scan fuel needed_words rom s).
Proof.
  revert s. induction fuel as [|fuel IH]; intros s; simpl; disciplined_go. apply IH.
Qed.

Lemma disciplined_find_needed_words (fuel : nat) (needed_words free_space_a : Z) :
  disciplined (find_needed_words fuel needed_words free_space_a).
Proof.
  unfold find_needed_words, open_r. disciplined_go. apply disciplined_scan.
Qed.

Lemma disciplined_compile_sources (w : world) (CC : string) (cflags files : list string)
    (long_calls : gset string) :
  disciplined (compile_sources w CC cflags files long_calls).
Proof.
  revert long_calls. induction files as [|f files IH]; intros lc; simpl.
  - disciplined_go.
  - apply disciplined_run. apply IH.
Qed.

Lemma disciplined_write_defines (out : string) (ds : list (string * option string)) :
  disciplined (write_defines out ds).
Proof. induction ds as [|d ds IH]; simpl; unfold write; disciplined_go. Qed.

Lemma disciplined_script (fuel : nat) (w : world) : disciplined (script fuel w).
Proof.
  unfold script, validate_config, rmtree, mkdir, find_devkitarm, compile_stage,
    merge_stage, open_w, allocation_request, stat_size, copy, find_armips,
    patch_source, open_r, write_bytes, write, assemble_stage.
  disciplined_go;
    try first [ apply disciplined_compile_sources
              | apply disciplined_find_needed_words
              | apply disciplined_write_defines ].
Qed.

Lemma print_is_last (pre pre' post : list event) (msg msg' : string) :
  pre ++ EvPrint msg :: post = pre' ++ [EvPrint msg'] -> silent pre' ->
  pre = pre' /\ msg = msg' /\ post = [].
Proof.
  revert pre'. induction pre as [|e pre IH]; intros pre' Heq Hs.
  - destruct pre' as [|e' pre']; simpl in Heq.
    + injection Heq as -> ->. auto.
    + injection Heq as <- _. inversion Hs as [|? ? He _]. simpl in He. tauto.
  - destruct pre' as [|e' pre']; simpl in Heq.
    + injection Heq as _ Heq. destruct pre; discriminate.
    + injection Heq as -> Heq. inversion Hs as [|? ? _ Hs'].
      destruct (IH pre' Heq Hs') as (-> & -> & ->). auto.
Qed.

Lemma main_outcome (fuel : nat) (w : world) :
  let st0 := {| st_fs := w_files w; st_trace := [] |} in
  match script fuel w st0 with
  | (Ok _, st') => main fuel w = (Exit 0, st') /\ silent (st_trace st')
  | (Stop o, st') =>
      main fuel w = (o, st') /\
      ((silent (st_trace st') /\ forall c, o <> Exit c) \/ announced o (st_trace st'))
  end.
Proof.
  cbv zeta. unfold main.
  pose proof (disciplined_script fuel w {| st_fs := w_files w; st_trace := [] |}
                (List.Forall_nil _)) as Hd.
  destruct (script fuel w _) as [[[]|o] st']; auto.
Qed.

(** X11: a line the script prints is always the last thing it does: nothing
    follows it in the trace, nothing was printed before it, and the run
    ends in [sys.exit] with a code other than 0. *)
Theorem printed_line_is_fatal (fuel : nat) (w : world) (pre post : list event)
    (msg : string) :
  st_trace (snd (main fuel w)) = pre ++ EvPrint msg :: post ->
  post = [] /\ silent pre /\
  exists code, code <> 0 /\ fst (main fuel w) = Exit code.
Proof.
  intros Htr. pose proof (main_outcome fuel w) as H. cbv zeta in H.
  destruct (script fuel w _) as [[[]|o] st'].
  - destruct H as [Hm Hs]. rewrite Hm in Htr. simpl in Htr. rewrite Htr in Hs.
    apply Forall_app in Hs as [_ Hs]. inversion Hs as [|? ? He _].
    simpl in He. tauto.
  - destruct H as [Hm [[Hs _]|(pre' & msg' & code & Heq & Hs & Hc & ->)]];
      rewrite Hm in *; simpl in Htr.
    + rewrite Htr in Hs. apply Forall_app in Hs as [_ Hs].
      inversion Hs as [|? ? He _]. simpl in He. tauto.
    + rewrite Htr in Heq. destruct (print_is_last _ _ _ _ _ Heq Hs) as (-> & -> & ->).
      split; [reflexivity|]. split; [exact Hs|]. exists code. auto.
Qed.

(** X12: a run that ends with exit code 0 has printed nothing; a run that
    ends with any other exit code has printed exactly one line, as its last
    effect. *)
Theorem exit_code_is_announced (fuel : nat) (w : world) (code : Z) :
  fst (main fuel w) = Exit code ->
  (code = 0 /\ silent (st_trace (snd (main fuel w)))) \/
  (code <> 0 /\ exists pre msg,
     st_trace (snd (main fuel w)) = pre ++ [EvPrint msg] /\ silent pre).
Proof.
  intros Ho. pose proof (main_outcome fuel w) as H. cbv zeta in H.
  destruct (script fuel w _) as [[[]|o] st'].
  - destruct H as [Hm Hs]. rewrite Hm in *. simpl in *. injection Ho as <-.
    left. auto.
  - destruct H as [Hm [[Hs Hne]|(pre' & msg' & c & Heq & Hs & Hc & ->)]];
      rewrite Hm in *; simpl in *.
    + subst o. exfalso. apply (Hne code). reflexivity.
    + injection Ho as <-. right. split; [exact Hc|]. eauto.
Qed.

Lemma printed_line_is_fatal_witness :
  [] = ([] : list event) /\
  silent (firstn 4 (st_trace (snd (main 0 failing_world)))) /\
  exists code, code <> 0 /\ fst (main 0 failing_world) = Exit code.
Proof.
  apply (printed_line_is_fatal 0 failing_world
           (firstn 4 (st_trace (snd (main 0 failing_world))))
           [] "Error :: Compilation failed.").
  vm_compute. reflexivity.
Defined.

Lemma exit_code_is_announced_witness :
  (2 = 0 /\ silent (st_trace (snd (main 0 failing_world)))) \/
  (2 <> 0 /\ exists pre msg,
     st_trace (snd (main 0 failing_world)) = pre ++ [EvPrint msg] /\ silent pre).
Proof. apply (exit_code_is_announced 0 failing_world 2). reflexivity. Defined.


(** ** The tools of a successful run *)




Section NoRun.














End NoRun.

Section Success.

Variable w : world.
Variable fuel : nat.






End Success.


(** ** Files the script leaves alone *)

Section Frame.

Variable w : world.
Variable p : string.
Hypothesis p_not_build : String.prefix "build/" p = false.
Hypothesis p_not_copy : p <> "test.gba"%string.
Hypothesis tools_keep_p : forall argv fs, snd (w_run w argv fs) !! p = fs !! p.
















End Frame.


(** ** The patched source *)





Section Patch.

Variable w : world.
Variable fuel : nat.


End Patch.


(** ** Tool discovery *)

Section Discovery.

Variable w : world.
Variable fuel : nat.



End Discovery.



(** ** Sample runs of the configuration checks *)

Lemma malformed_free_space_exits_1_witness :
  let w := sample_world
             {| free_space := Some "0x08zz"%string;
                optimization_level := Some "-O2"%string;
                reserve := Some "0"%string;
                short_calls := ∅;
                defines := [] |}
             ["a.c"%string] toy_tool in
  main 0 w =
  (Exit 1, logged (EvPrint "Error :: 0x08zz is not a hexadecimal integer.")
                  {| st_fs := w_files w; st_trace := [] |}).
Proof.
  intros w. apply (malformed_free_space_exits_1 w 0 "0x08zz"); reflexivity.
Defined.

Lemma malformed_reserve_exits_1_witness :
  let w := sample_world
             {| free_space := Some "0x08800000"%string;
                optimization_level := Some "-O2"%string;
                reserve := Some "0x10"%string;
                short_calls := ∅;
                defines := [] |}
             ["a.c"%string] toy_tool in
  main 0 w =
  (Exit 1, logged (EvPrint "Error :: 0x10 is not a decimal integer.")
                  {| st_fs := w_files w; st_trace := [] |}).
Proof.
  intros w.
  apply (malformed_reserve_exits_1 w 0 "0x08800000" "0x10" 0x08800000);
    reflexivity.
Defined.

Lemma unknown_level_exits_1_witness :
  let w := sample_world
             {| free_space := Some "0x08800000"%string;
                optimization_level := Some "-O4"%string;
                reserve := Some "16"%string;
                short_calls := ∅;
                defines := [] |}
             ["a.c"%string] toy_tool in
  main 0 w =
  (Exit 1, logged (EvPrint "Error :: -O4 is not an understood optimization level.")
                  {| st_fs := w_files w; st_trace := [] |}).
Proof.
  intros w.
  apply (unknown_level_exits_1 w 0 "0x08800000" "16" 0x08800000 16);
    try reflexivity.
  vm_compute. intros H. repeat (inversion H as [|? ? ? H']; subst; clear H; rename H' into H).
Defined.
